(** * Lab5: bearer tokens, invitation registry, sweeper and rate limiter

    A shallow embedding of [main.go].  Every handler is a function from
    the request and the state it touches (the SQL tables, the limiter
    map) to a response and the new state.  The two libraries the program
    calls, [jwt-go] (MapClaims parsing and validation) and
    [juju/ratelimit] (the token bucket), are modelled by the functions
    the program calls, with the behaviour the program observes. *)

From Stdlib Require Import ZArith List String Ascii Bool Lia.
From stdpp Require Import base gmap strings list.
Import ListNotations.

Open Scope string_scope.
Open Scope Z_scope.

(** ** net/http: requests, responses, status codes *)

Module Http.

Definition StatusOK : Z := 200.
Definition StatusCreated : Z := 201.
Definition StatusBadRequest : Z := 400.
Definition StatusUnauthorized : Z := 401.
Definition StatusMethodNotAllowed : Z := 405.
Definition StatusTooManyRequests : Z := 429.
Definition StatusInternalServerError : Z := 500.

(** What a handler has written: the status line and either the plain
    text of [http.Error] or a JSON-encoded value of type [A]. *)
Inductive Content (A : Type) :=
| Text (line : string)
| Json (v : A).
Arguments Text {A} line.
Arguments Json {A} v.

Record Response (A : Type) := mkResponse { status : Z; body : Content A }.
Arguments mkResponse {A} status body.
Arguments status {A} r.
Arguments body {A} r.

(** [http.Error(w, msg, code)] *)
Definition Error {A} (msg : string) (code : Z) : Response A :=
  mkResponse code (Text msg).

End Http.
Import Http.

(** ** JSON values and the Go values held in a [jwt.MapClaims] *)

Inductive JSON :=
| JNumber (n : Z)
| JString (s : string)
| JBool (b : bool)
| JNull
| JComposite (raw : string).   (* an array or an object, kept as its text *)

(** The dynamic type of an [interface{}] entry of the claims map.  The
    handlers store an [int64] and a [string]; [encoding/json] stores
    [float64] for every number.  Numbers are Unix-second counts, which
    [float64] holds exactly, so both carry an integer. *)
Inductive GoValue :=
| GoInt64 (n : Z)
| GoFloat64 (n : Z)
| GoString (s : string)
| GoBool (b : bool)
| GoNil
| GoComposite (raw : string).   (* []interface{} or map[string]interface{} *)

(** What [encoding/json] writes for a Go string, read back as a string:
    the well-formed UTF-8 sequences as they are, and U+FFFD (the bytes
    EF BF BD) for every byte at which [utf8.DecodeRuneInString] finds no
    well-formed sequence.  Escapes do not change the value. *)
Module utf8.

Definition RuneError : string :=
  String (ascii_of_nat 239) (String (ascii_of_nat 191) (String (ascii_of_nat 189) "")).

Definition between (lo hi : nat) (c : ascii) : bool :=
  ((lo <=? nat_of_ascii c)%nat && (nat_of_ascii c <=? hi)%nat)%bool.

(** a continuation byte, 80..BF *)
Definition cont (c : ascii) : bool := between 128 191 c.

(** the first two bytes of a well-formed sequence of two, three, four bytes *)
Definition lead2 (c1 : ascii) : bool := between 194 223 c1.
Definition lead3 (c1 c2 : ascii) : bool :=
  (between 224 224 c1 && between 160 191 c2)
  || (between 225 236 c1 && cont c2)
  || (between 237 237 c1 && between 128 159 c2)
  || (between 238 239 c1 && cont c2).
Definition lead4 (c1 c2 : ascii) : bool :=
  (between 240 240 c1 && between 144 191 c2)
  || (between 241 243 c1 && cont c2)
  || (between 244 244 c1 && between 128 143 c2).

Fixpoint coerce (s : string) : string :=
  match s with
  | EmptyString => EmptyString
  | String c1 s1 =>
      if (nat_of_ascii c1 <? 128)%nat then String c1 (coerce s1)
      else
        match s1 with
        | EmptyString => RuneError
        | String c2 s2 =>
            if lead2 c1 && cont c2 then String c1 (String c2 (coerce s2))
            else
              match s2 with
              | EmptyString => RuneError +:+ coerce s1
              | String c3 s3 =>
                  if lead3 c1 c2 && cont c3 then
                    String c1 (String c2 (String c3 (coerce s3)))
                  else
                    match s3 with
                    | EmptyString => RuneError +:+ coerce s1
                    | String c4 s4 =>
                        if lead4 c1 c2 && cont c3 && cont c4 then
                          String c1 (String c2 (String c3 (String c4 (coerce s4))))
                        else RuneError +:+ coerce s1
                    end
              end
        end
  end.

End utf8.

(** [json.Marshal] of a claims entry *)
Definition marshal (v : GoValue) : JSON :=
  match v with
  | GoInt64 n => JNumber n
  | GoFloat64 n => JNumber n
  | GoString s => JString (utf8.coerce s)
  | GoBool b => JBool b
  | GoNil => JNull
  | GoComposite raw => JComposite raw
  end.

(** [json.Decoder.Decode] into an [interface{}] *)
Definition unmarshal (j : JSON) : GoValue :=
  match j with
  | JNumber n => GoFloat64 n
  | JString s => GoString s
  | JBool b => GoBool b
  | JNull => GoNil
  | JComposite raw => GoComposite raw
  end.

(** ** jwt-go: signing methods, tokens, parsing *)

Inductive SigningMethod :=
| HS256
| HS384
| HS512
| OtherMethod (alg : string).   (* RS*, ES*, PS*, none, or a name not registered *)

(** A compact JWS that splits in three segments which decode: the [alg]
    of its header, the claims of its payload and its signature. *)
Record Jws := mkJws {
  alg : SigningMethod;
  payload : gmap string JSON;
  signature : string
}.

(** A Go string that may hold a token: [Compact t] is the compact
    serialisation of [t]; [Plain s] is the string [s], which is not a
    serialisation (it does not split in three segments, or a segment
    does not decode). *)
Inductive TokenString :=
| Plain (s : string)
| Compact (t : Jws).

Definition isEmpty (ts : TokenString) : bool :=
  match ts with
  | Plain s => String.eqb s ""
  | Compact _ => false
  end.

(** [type User struct], the target of [json.Decode] in the register and
    login handlers *)
Record User := mkUser { Email : string; Password : string; Code : string }.

Record Request := mkRequest {
  Method : string;
  (** the Authorization header cut at every single space, as
      [strings.Split(authHeader, " ")] returns it; an absent or empty
      header is [[Plain ""]] *)
  Authorization : list TokenString;
  Form : gmap string (list string);       (* URL query and body parameters *)
  PostForm : gmap string (list string);   (* body parameters only *)
  (** what [json.NewDecoder(r.Body).Decode(&user)] leaves in [user]
      (its error is dropped): the zero value where the body has no field *)
  Body : User;
  RemoteAddr : string
}.

(** [url.Values.Get]: the first value of the key, or "" *)
Definition Get (vs : gmap string (list string)) (key : string) : string :=
  match vs !! key with
  | Some (v :: _) => v
  | _ => ""
  end.

Definition FormValue (r : Request) (key : string) : string := Get (Form r) key.
Definition PostFormValue (r : Request) (key : string) : string := Get (PostForm r) key.

(** [strings.ToLower], on the ASCII letters: no other character
    lowercases to a letter of "bearer". *)
Definition lower_ascii (c : ascii) : ascii :=
  let n := nat_of_ascii c in
  if ((65 <=? n)%nat && (n <=? 90)%nat)%bool then ascii_of_nat (n + 32) else c.

Fixpoint ToLower (s : string) : string :=
  match s with
  | EmptyString => EmptyString
  | String c s' => String (lower_ascii c) (ToLower s')
  end.

(** ** Token service: [GenerateJWTToken], [AuthMiddleware], [GenerateTokenHandler] *)

Section TokenService.

(** HMAC-SHA2 of the signing input (header and payload) under a key;
    a total function of its arguments. *)
Variable hmac : SigningMethod -> string -> SigningMethod * gmap string JSON -> string.

(** [var jwtKey = []byte("")] *)
Definition jwtKey : string := "".

(** [time.Now().Add(2 * time.Hour).Unix()] at Unix second [now] *)
Definition twoHoursFrom (now : Z) : Z := now + 2 * 3600.

(** [SigningMethod.Sign] with a [[]byte] key: the HMAC methods sign,
    every other method refuses the key. *)
Definition Sign (m : SigningMethod) (input : SigningMethod * gmap string JSON)
    (key : string) : string + string :=
  match m with
  | HS256 | HS384 | HS512 => inl (hmac m key input)
  | OtherMethod _ => inr "key is of invalid type"
  end.

(** [SigningMethod.Verify] with a [[]byte] key *)
Definition Verify (m : SigningMethod) (input : SigningMethod * gmap string JSON)
    (sig key : string) : bool :=
  match m with
  | HS256 | HS384 | HS512 => String.eqb sig (hmac m key input)
  | OtherMethod _ => false
  end.

(** [jwt.NewWithClaims(method, claims).SignedString(key)] *)
Definition SignedString (m : SigningMethod) (claims : gmap string GoValue)
    (key : string) : TokenString + string :=
  let p := marshal <$> claims in
  match Sign m (m, p) key with
  | inl sig => inl (Compact (mkJws m p sig))
  | inr err => inr err
  end.

(** [GenerateJWTToken(username)] at Unix second [now] *)
Definition GenerateJWTToken (now : Z) (username : string) : TokenString + string :=
  let claims : gmap string GoValue :=
    <["email" := GoString username]> (<["expiry" := GoInt64 (twoHoursFrom now)]> ∅) in
  match SignedString HS256 claims jwtKey with
  | inl tokenString => inl tokenString
  | inr err => inr err
  end.

(** [verifyExp], [verifyIat], [verifyNbf] of jwt-go *)
Definition verifyExp (exp now : Z) (required : bool) : bool :=
  if exp =? 0 then negb required else now <=? exp.
Definition verifyIat (iat now : Z) (required : bool) : bool :=
  if iat =? 0 then negb required else iat <=? now.
Definition verifyNbf (nbf now : Z) (required : bool) : bool :=
  if nbf =? 0 then negb required else nbf <=? now.

(** [MapClaims.VerifyExpiresAt] and its two siblings: only a [float64]
    entry is compared (no [json.Number], the parser is the default one). *)
Definition VerifyClaim (verify : Z -> Z -> bool -> bool) (name : string)
    (m : gmap string GoValue) (cmp : Z) (req : bool) : bool :=
  match m !! name with
  | Some (GoFloat64 v) => verify v cmp req
  | _ => negb req
  end.

(** [MapClaims.Valid]: the registered claims "exp", "iat", "nbf", each
    optional.  No other claim is looked at. *)
Definition Valid (m : gmap string GoValue) (now : Z) : bool :=
  VerifyClaim verifyExp "exp" m now false
  && VerifyClaim verifyIat "iat" m now false
  && VerifyClaim verifyNbf "nbf" m now false.

(** [jwt.ParseWithClaims(tokenString, claims, keyFunc)] with a key
    function that returns [key].  The payload is decoded INTO the map
    the caller passed ([encoding/json] keeps the entries of a non-nil
    map and overwrites the decoded keys), so the map comes back with
    the result; the boolean is [err == nil && token.Valid]. *)
Definition ParseWithClaims (tokenString : TokenString) (claims : gmap string GoValue)
    (key : string) (now : Z) : gmap string GoValue * bool :=
  match tokenString with
  | Plain _ => (claims, false)
  | Compact t =>
      let claims' := (unmarshal <$> payload t) ∪ claims in
      (claims', Valid claims' now && Verify (alg t) (alg t, payload t) (signature t) key)
  end.

(** [ExtractTokenFromHeader(r)] *)
Definition ExtractTokenFromHeader (r : Request) : TokenString :=
  match Authorization r with
  | [Plain ""] => Plain ""
  | [Plain scheme; tok] =>
      if String.eqb (ToLower scheme) "bearer" then tok else Plain ""
  | _ => Plain ""
  end.

(** [AuthMiddleware(next)] at Unix second [now], over the state [S]
    the wrapped handler works on *)
Definition AuthMiddleware {S A : Type} (next : Request -> S -> Response A * S)
    (now : Z) (r : Request) (s : S) : Response A * S :=
  let email := FormValue r "email" in
  let claims : gmap string GoValue :=
    <["email" := GoString email]> (<["expiry" := GoInt64 (twoHoursFrom now)]> ∅) in
  let tokenString := ExtractTokenFromHeader r in
  if isEmpty tokenString then
    (Error "Authorization header not found" StatusUnauthorized, s)
  else
    let '(claims, ok) := ParseWithClaims tokenString claims jwtKey now in
    if negb ok then (Error "Invalid token" StatusUnauthorized, s)
    else
      match claims !! "expiry" with
      | Some (GoFloat64 expClaim) =>
          if expClaim =? 0 then (Error "Expired token" StatusUnauthorized, s)
          else next r s
      | _ => (Error "Expired token" StatusUnauthorized, s)
      end.

(** [type Token struct { Token string; ExpireAt time.Time }] *)
Record Token := mkToken { Token_ : TokenString; ExpireAt : Z }.

(** [GenerateTokenHandler()] at Unix second [now] *)
Definition GenerateTokenHandler (now : Z) (r : Request) : Response Token :=
  let value := PostFormValue r "Email" in
  if String.eqb value "" then Error "Email header not found" StatusUnauthorized
  else
    match GenerateJWTToken now value with
    | inr err => Error "Failed to generate token" StatusInternalServerError
    | inl tokenString =>
        mkResponse StatusOK (Json (mkToken tokenString (twoHoursFrom now)))
    end.

End TokenService.

(** ** Handlers that return early

    A handler body is a sequence of steps over the state [S]; a step
    either yields a value or has written the response and returned
    ([http.Error(...); return]). *)

Definition Step (S A R : Type) : Type := S -> (R + Response A) * S.

Definition ret {S A R} (x : R) : Step S A R := fun s => (inl x, s).

Definition bind {S A R R'} (m : Step S A R) (k : R -> Step S A R') : Step S A R' :=
  fun s =>
    match m s with
    | (inl x, s') => k x s'
    | (inr resp, s') => (inr resp, s')
    end.

(** write the response and return *)
Definition reply {S A R} (resp : Response A) : Step S A R := fun s => (inr resp, s).

(** [if c { http.Error(w, msg, code); return }] *)
Definition reject_if {S A} (c : bool) (msg : string) (code : Z) : Step S A unit :=
  if c then reply (Error msg code) else ret tt.

(** [if err != nil { http.Error(w, err.Error(), code); return }] *)
Definition reject_err {S A} (err : option string) (code : Z) : Step S A unit :=
  match err with
  | Some msg => reply (Error msg code)
  | None => ret tt
  end.

Definition get {S A} : Step S A S := fun s => (inl s, s).
Definition put {S A} (s : S) : Step S A unit := fun _ => (inl tt, s).

Definition run {S A} (m : Step S A (Response A)) (s : S) : Response A * S :=
  match m s with
  | (inl resp, s') => (resp, s')
  | (inr resp, s') => (resp, s')
  end.

Declare Scope step_scope.
Delimit Scope step_scope with step.
Notation "x <- m ;; k" := (bind m (fun x => k))
  (at level 100, m at next level, right associativity) : step_scope.
Notation "m ;; k" := (bind m (fun _ => k))
  (at level 100, right associativity) : step_scope.

(** ** The relational store *)

Module Sql.

(** Instants of the database clock, in microseconds. *)
Definition seconds (n : Z) : Z := n * 1000000.
Definition minutes (n : Z) : Z := seconds (n * 60).

(** A row of [invitation_codes].  The program never writes
    [expires_at]: the column keeps what the table gives it, possibly
    NULL. *)
Record InvitationRow := mkInvitation {
  inv_id : Z;
  inv_code : string;
  inv_email : string;
  inv_used : bool;
  inv_expires_at : option Z
}.

Record UserRow := mkUserRow {
  usr_id : Z;
  usr_email : string;
  usr_password_hash : string
}.

Record SessionRow := mkSession {
  ses_user_id : Z;
  ses_token : TokenString
}.

Record DB := mkDB {
  invitation_codes : list InvitationRow;
  users : list UserRow;
  sessions : list SessionRow
}.

(** [expires_at > NOW() - INTERVAL '2 minutes']; a comparison with
    NULL is not true *)
Definition expires_after_grace (now : Z) (row : InvitationRow) : bool :=
  match inv_expires_at row with
  | Some t => now - minutes 2 <? t
  | None => false
  end.

(** [expires_at < NOW() - INTERVAL '2 minutes'] *)
Definition expires_before_grace (now : Z) (row : InvitationRow) : bool :=
  match inv_expires_at row with
  | Some t => t <? now - minutes 2
  | None => false
  end.

(** [WHERE code=$1 AND email=$2] *)
Definition where_code_email (c e : string) (row : InvitationRow) : bool :=
  String.eqb (inv_code row) c && String.eqb (inv_email row) e.

(** [WHERE code=$1 AND used=true AND email=$2] *)
Definition where_code_used_email (c e : string) (row : InvitationRow) : bool :=
  String.eqb (inv_code row) c && inv_used row && String.eqb (inv_email row) e.

(** [WHERE code=$1 AND used=false AND email=$2
     AND expires_at > NOW() - INTERVAL '2 minutes'] *)
Definition where_code_unused_email_live (now : Z) (c e : string)
    (row : InvitationRow) : bool :=
  String.eqb (inv_code row) c && negb (inv_used row) && String.eqb (inv_email row) e
  && expires_after_grace now row.

(** [SELECT EXISTS(SELECT 1 FROM invitation_codes WHERE ...)] *)
Definition select_exists (P : InvitationRow -> bool) (db : DB) : bool :=
  existsb P (invitation_codes db).

(** [INSERT INTO invitation_codes (code, email, used) VALUES ($1, $2, false)];
    [id] and [expires_at] are the table's defaults for the new row *)
Definition insert_invitation (id : Z) (expires : option Z) (c e : string) (db : DB) : DB :=
  mkDB (invitation_codes db ++ [mkInvitation id c e false expires])
       (users db) (sessions db).

(** [INSERT INTO users (email, password_hash) VALUES ($1, $2)] *)
Definition insert_user (id : Z) (e h : string) (db : DB) : DB :=
  mkDB (invitation_codes db) (users db ++ [mkUserRow id e h])%list (sessions db).

Definition mark_used (c : string) (row : InvitationRow) : InvitationRow :=
  if String.eqb (inv_code row) c
  then mkInvitation (inv_id row) (inv_code row) (inv_email row) true (inv_expires_at row)
  else row.

(** [UPDATE invitation_codes SET used=true WHERE code=$1] *)
Definition update_used (c : string) (db : DB) : DB :=
  mkDB (map (mark_used c) (invitation_codes db)) (users db) (sessions db).

(** [INSERT INTO sessions (user_id, token) VALUES ($1, $2)] *)
Definition insert_session (uid : Z) (tok : TokenString) (db : DB) : DB :=
  mkDB (invitation_codes db) (users db) (sessions db ++ [mkSession uid tok])%list.

(** [SELECT ... FROM users WHERE email = $1], first row *)
Definition select_user (e : string) (db : DB) : option UserRow :=
  find (fun u => String.eqb (usr_email u) e) (users db).

End Sql.
Import Sql.

(** ** Invitation registry: [GenerateInvitationCodeHandler], [RegisterHandler] *)

(** [base64.URLEncoding.EncodeToString], over bytes given as numbers
    in 0..255 *)
Module base64.

Definition alphabet : string :=
  "ABCDEFGHIJKLMNOPQRSTUVWXYZabcdefghijklmnopqrstuvwxyz0123456789-_".

Definition digit (n : Z) : string :=
  match String.get (Z.to_nat n) alphabet with
  | Some c => String c EmptyString
  | None => ""
  end.

Fixpoint EncodeToString (src : list Z) : string :=
  match src with
  | [] => ""
  | [a] =>
      digit (Z.shiftr a 2) +:+ digit (Z.land (Z.shiftl a 4) 63) +:+ "=="
  | [a; b] =>
      digit (Z.shiftr a 2)
      +:+ digit (Z.land (Z.lor (Z.shiftl a 4) (Z.shiftr b 4)) 63)
      +:+ digit (Z.land (Z.shiftl b 2) 63) +:+ "="
  | a :: b :: c :: rest =>
      digit (Z.shiftr a 2)
      +:+ digit (Z.land (Z.lor (Z.shiftl a 4) (Z.shiftr b 4)) 63)
      +:+ digit (Z.land (Z.lor (Z.shiftl b 2) (Z.shiftr c 6)) 63)
      +:+ digit (Z.land c 63)
      +:+ EncodeToString rest
  end.

End base64.

(** [type InvitationCode struct { Code string; Used bool }] *)
Record InvitationCode := mkInvitationCode { Code_ : string; Used : bool }.

(** What the world gives one run of [GenerateInvitationCodeHandler]. *)
Record InviteEnv := mkInviteEnv {
  rand_Read : list Z + string;        (* the 16 bytes, or the error of [rand.Read] *)
  inv_exec_err : option string;       (* the error of the INSERT, if it fails *)
  inv_new_id : Z;                     (* the table's [id] for the new row *)
  inv_new_expires_at : option Z       (* the table's [expires_at] for the new row *)
}.

Definition GenerateInvitationCodeHandler (env : InviteEnv) (r : Request)
    : DB -> Response InvitationCode * DB :=
  run (
    let email := FormValue r "email" in
    match rand_Read env with
    | inr err => reply (Error err StatusInternalServerError)
    | inl codeBytes =>
        let code := base64.EncodeToString codeBytes in
        reject_err (inv_exec_err env) StatusInternalServerError ;;
        db <- get ;;
        put (insert_invitation (inv_new_id env) (inv_new_expires_at env) code email db) ;;
        (* the body is written first: the later WriteHeader(201) has no effect *)
        ret (mkResponse StatusOK (Json (mkInvitationCode code false)))
    end)%step.

(** What the world gives one run of [RegisterHandler]: the database
    clock, the error of each database call (None when it succeeds), the
    result of bcrypt, and the [id] the table gives the new user. *)
Record RegisterEnv := mkRegisterEnv {
  reg_NOW : Z;
  err_codeExists : option string;
  err_IsCodeUsed : option string;
  err_isValidCode : option string;
  bcrypt_GenerateFromPassword : string -> string + string;
  err_insert_user : option string;
  reg_new_id : Z;
  err_update : option string
}.

Definition RegisterHandler (env : RegisterEnv) (r : Request) : DB -> Response User * DB :=
  run (
    reject_if (negb (String.eqb (Method r) "POST"))
      "Only POST method is allowed!" StatusMethodNotAllowed ;;
    let user := Body r in
    (* Check if invitation code exists for the user *)
    reject_err (err_codeExists env) StatusInternalServerError ;;
    db <- get ;;
    let codeExists := select_exists (where_code_email (Code user) (Email user)) db in
    reject_if (negb codeExists) "Invalid invitation code" StatusBadRequest ;;
    (* Check if invitation code exists unused for the user *)
    reject_err (err_IsCodeUsed env) StatusInternalServerError ;;
    db <- get ;;
    let isCodeUsed := select_exists (where_code_used_email (Code user) (Email user)) db in
    reject_if isCodeUsed "Used invitation code" StatusBadRequest ;;
    (* Check if invitation code exists and not expired for the user *)
    reject_err (err_isValidCode env) StatusInternalServerError ;;
    db <- get ;;
    let isValidCode :=
      select_exists
        (where_code_unused_email_live (reg_NOW env) (Code user) (Email user)) db in
    reject_if (negb isValidCode) "Expired invitation code" StatusBadRequest ;;
    (* Hash the password *)
    match bcrypt_GenerateFromPassword env (Password user) with
    | inr err => reply (Error err StatusInternalServerError)
    | inl hashedPassword =>
        (* Insert user into the database *)
        reject_err (err_insert_user env) StatusInternalServerError ;;
        db <- get ;;
        put (insert_user (reg_new_id env) (Email user) hashedPassword db) ;;
        (* Mark the invitation code as used *)
        reject_err (err_update env) StatusInternalServerError ;;
        db <- get ;;
        put (update_used (Code user) db) ;;
        ret (mkResponse StatusCreated (Json user))
    end)%step.

(** ** [LoginHandler] *)

Record LoginEnv := mkLoginEnv {
  (** [bcrypt.CompareHashAndPassword(hash, password) == nil] *)
  bcrypt_matches : string -> string -> bool;
  err_select_hash : option string;    (* a failure of the first SELECT itself *)
  err_select_id : option string;      (* a failure of the second SELECT (dropped) *)
  err_insert_session : option string
}.

Definition LoginHandler (env : LoginEnv) (r : Request) : DB -> Response unit * DB :=
  run (
    let tokenString := ExtractTokenFromHeader r in
    reject_if (isEmpty tokenString) "Authorization header not found" StatusUnauthorized ;;
    reject_if (negb (String.eqb (Method r) "POST"))
      "Only POST method is allowed!" StatusMethodNotAllowed ;;
    let user := Body r in
    db <- get ;;
    (* Scan fails when the statement fails and when there is no row *)
    match (if err_select_hash env is Some _ then None else select_user (Email user) db) with
    | None => reply (Error "User not found" StatusUnauthorized)
    | Some row =>
        let passwordHsh := usr_password_hash row in
        (* Compare passwords *)
        reject_if (negb (bcrypt_matches env passwordHsh (Password user)))
          "Invalid credential!" StatusMethodNotAllowed ;;
        db <- get ;;
        let user_id :=
          match (if err_select_id env is Some _ then None else select_user (Email user) db) with
          | Some row' => usr_id row'
          | None => 0
          end in
        (* Insert user session into the database *)
        reject_err (err_insert_session env) StatusInternalServerError ;;
        put (insert_session user_id tokenString db) ;;
        ret (mkResponse StatusOK (Text "Logged in successfully!"))
    end)%step.

(** ** Expiry sweeper: [GetExpiredInvitations], [ResendInvitation], [ProcessResendCodes] *)

(** [type Invitation struct { ID int; Email string }] *)
Record Invitation := mkInv { ID : Z; Email_ : string }.

(** What one query of the sweeper meets: the tables and the clock of
    the store at that moment, and the error of the query if it fails. *)
Record Snapshot := mkSnapshot {
  snap_db : DB;
  snap_NOW : Z;
  snap_err : option string
}.

(** [WHERE used = false AND expires_at < NOW() - INTERVAL '2 minutes'] *)
Definition where_unused_expired (now : Z) (row : InvitationRow) : bool :=
  negb (inv_used row) && expires_before_grace now row.

Definition GetExpiredInvitations (s : Snapshot) : list Invitation + string :=
  match snap_err s with
  | Some err => inr err
  | None =>
      inl (map (fun row => mkInv (inv_id row) (inv_email row))
               (filter (fun row => where_unused_expired (snap_NOW s) row = true)
                       (invitation_codes (snap_db s))))
  end.

(** What the loop does, as the outside sees it. *)
Inductive Event :=
| Queried                      (* a query was sent to the store *)
| Printed (line : string)      (* a line on standard output *)
| Slept (d : Z).               (* [time.Sleep(d)], [d] in seconds *)

(** [ResendInvitation(invitation)]: prints, and returns nil *)
Definition ResendInvitation (invitation : Invitation) : list Event * option string :=
  ([Printed ("Resending invitation to " +:+ Email_ invitation)], None).

Section Sweeper.

(** the notifier the loop calls; the program's is [ResendInvitation] *)
Variable notify : Invitation -> list Event * option string.

(** the [for _, invitation := range expiredInvitations] loop *)
Fixpoint resend_all (expiredInvitations : list Invitation) : list Event :=
  match expiredInvitations with
  | [] => []
  | invitation :: rest =>
      let '(out, err) := notify invitation in
      (out
       ++ match err with
          | Some msg => [Printed ("Error resending invitation: " +:+ msg)]
          | None => []
          end
       ++ resend_all rest)%list
  end.

(** One pass through the body of [for { ... }]. *)
Definition sweep_once (s : Snapshot) : list Event :=
  match GetExpiredInvitations s with
  | inr err =>
      (* continue *)
      [Queried; Printed ("Error querying expired invitations: " +:+ err)]
  | inl expiredInvitations =>
      (Queried :: resend_all expiredInvitations ++ [Slept (2 * 3600)])%list
  end.

(** The loop never ends; its trace over the first iterations, one per
    snapshot the store presents. *)
Fixpoint ProcessResendCodesWith (store : list Snapshot) : list Event :=
  match store with
  | [] => []
  | s :: later => (sweep_once s ++ ProcessResendCodesWith later)%list
  end.

End Sweeper.

Definition ProcessResendCodes (store : list Snapshot) : list Event :=
  ProcessResendCodesWith ResendInvitation store.

(** ** [main] *)

(** How the process stands when [main] advances no further. *)
Inductive Halt :=
| Blocked            (* inside a call that does not return *)
| Exited (code : Z). (* [os.Exit(code)] *)

Inductive MainEvent :=
| Logged (line : string)
| Routed (pattern : string)       (* [http.HandleFunc(pattern, ...)] *)
| Serving (addr : string)         (* [http.ListenAndServe(addr, nil)] entered *)
| Sweep (e : Event).              (* an event of [ProcessResendCodes] *)

(** A run of the main goroutine: what it has done, and its result or
    the reason it stopped. *)
Definition Proc (R : Type) : Type := list MainEvent * (R + Halt).

Definition pret {R} (x : R) : Proc R := ([], inl x).
Definition pbind {R R'} (m : Proc R) (k : R -> Proc R') : Proc R' :=
  match m with
  | (tr, inl x) => let '(tr', res) := k x in ((tr ++ tr')%list, res)
  | (tr, inr h) => (tr, inr h)
  end.
Definition emit (e : MainEvent) : Proc unit := ([e], inl tt).

(** [log.Fatal(v)]: prints, then [os.Exit(1)] *)
Definition log_Fatal {R} (v : string) : Proc R := ([Logged v], inr (Exited 1)).

Declare Scope proc_scope.
Delimit Scope proc_scope with proc.
Notation "x <- m ;; k" := (pbind m (fun x => k))
  (at level 100, m at next level, right associativity) : proc_scope.
Notation "m ;; k" := (pbind m (fun _ => k))
  (at level 100, right associativity) : proc_scope.

Record MainEnv := mkMainEnv {
  sql_Open_err : option string;
  db_Ping_err : option string;
  (** [http.ListenAndServe] returns only with an error; None: it serves
      for the life of the process *)
  ListenAndServe_err : option string;
  (** what the store would present to the sweeper *)
  store : list Snapshot
}.

Definition SetupDatabase (env : MainEnv) : Proc unit :=
  (match sql_Open_err env with
   | Some err => log_Fatal err
   | None =>
       match db_Ping_err env with
       | Some err => log_Fatal err
       | None => emit (Logged "Successfully connected to the database")
       end
   end)%proc.

Definition ListenAndServe (addr : string) (env : MainEnv) : Proc string :=
  match ListenAndServe_err env with
  | None => ([Serving addr], inr Blocked)
  | Some err => ([Serving addr], inl err)
  end.

Definition main (env : MainEnv) : Proc unit :=
  (SetupDatabase env ;;
   emit (Routed "/token") ;;
   emit (Routed "/invite") ;;
   emit (Routed "/register") ;;
   emit (Routed "/login") ;;
   emit (Logged "Server started on :8012") ;;
   err <- ListenAndServe ":8012" env ;;
   log_Fatal (R := unit) err ;;
   (map Sweep (ProcessResendCodes (store env)), inr Blocked))%proc.

(** ** juju/ratelimit and [RateLimitMiddleware] *)

Module ratelimit.

(** Instants and durations in nanoseconds. *)
Definition Second : Z := 1000000000.

Record Bucket := mkBucket {
  startTime : Z;
  capacity : Z;
  quantum : Z;
  fillInterval : Z;
  availableTokens : Z;
  latestTick : Z
}.

(** [NewBucketWithQuantum(fillInterval, capacity, quantum)] at [now] *)
Definition NewBucketWithQuantum (fillInterval capacity quantum now : Z) : Bucket :=
  mkBucket now capacity quantum fillInterval capacity 0.

(** [NewBucketWithRate(1, 1)] at [now]: the search for a quantum ends
    at its first candidate, quantum 1 with a fill interval of
    1e9 * 1 / 1 nanoseconds, whose rate is exactly 1. *)
Definition NewBucketWithRate_1_1 (now : Z) : Bucket :=
  NewBucketWithQuantum Second 1 1 now.

(** [tb.currentTick(now)]; Go's integer division truncates *)
Definition currentTick (tb : Bucket) (now : Z) : Z :=
  Z.quot (now - startTime tb) (fillInterval tb).

(** [tb.adjustavailableTokens(tick)] *)
Definition adjustavailableTokens (tb : Bucket) (tick : Z) : Bucket :=
  let lastTick := latestTick tb in
  let tb := mkBucket (startTime tb) (capacity tb) (quantum tb) (fillInterval tb)
                     (availableTokens tb) tick in
  if capacity tb <=? availableTokens tb then tb
  else
    let avail := availableTokens tb + (tick - lastTick) * quantum tb in
    let avail := if capacity tb <? avail then capacity tb else avail in
    mkBucket (startTime tb) (capacity tb) (quantum tb) (fillInterval tb) avail tick.

(** [tb.TakeAvailable(count)] at [now]: the tokens taken and the bucket after *)
Definition TakeAvailable (tb : Bucket) (now : Z) (count : Z) : Z * Bucket :=
  if count <=? 0 then (0, tb)
  else
    let tb := adjustavailableTokens tb (currentTick tb now) in
    if availableTokens tb <=? 0 then (0, tb)
    else
      let count := if availableTokens tb <? count then availableTokens tb else count in
      (count, mkBucket (startTime tb) (capacity tb) (quantum tb) (fillInterval tb)
                       (availableTokens tb - count) (latestTick tb)).

End ratelimit.
Import ratelimit.

(** [RateLimitMiddleware(next)] at instant [now] (nanoseconds), over the
    limiter map and the state [S] of the wrapped handler.  The map holds
    pointers: the bucket a request has taken from is the one the next
    request finds. *)
Definition RateLimitMiddleware {S A : Type} (next : Request -> S -> Response A * S)
    (now : Z) (r : Request) (st : gmap string Bucket * S)
    : Response A * (gmap string Bucket * S) :=
  let '(ipLimiterMap, s) := st in
  let ip := RemoteAddr r in
  let '(limiter, ipLimiterMap) :=
    match ipLimiterMap !! ip with
    | Some limiter => (limiter, ipLimiterMap)
    | None =>
        let limiter := NewBucketWithRate_1_1 now in
        (limiter, <[ip := limiter]> ipLimiterMap)
    end in
  let '(taken, limiter) := TakeAvailable limiter now 1 in
  let ipLimiterMap := <[ip := limiter]> ipLimiterMap in
  if taken =? 0 then
    (Error "Rate limit exceeded" StatusTooManyRequests, (ipLimiterMap, s))
  else
    let '(resp, s) := next r s in
    (resp, (ipLimiterMap, s)).

(** ** The routes of [main]

    [main] serves four patterns; the state a request can touch is the
    limiter map and the tables.  [unix] is the wall clock in seconds,
    [nanos] the limiter's clock. *)

Section Routes.

Variable hmac : SigningMethod -> string -> SigningMethod * gmap string JSON -> string.

(** [http.HandleFunc("/invite", AuthMiddleware(GenerateInvitationCodeHandler(db)))] *)
Definition route_invite (unix : Z) (env : InviteEnv) (r : Request)
    : DB -> Response InvitationCode * DB :=
  AuthMiddleware hmac (GenerateInvitationCodeHandler env) unix r.

(** [http.HandleFunc("/register", AuthMiddleware(RegisterHandler(db)))] *)
Definition route_register (unix : Z) (env : RegisterEnv) (r : Request)
    : DB -> Response User * DB :=
  AuthMiddleware hmac (RegisterHandler env) unix r.

(** [http.HandleFunc("/login", RateLimitMiddleware(AuthMiddleware(LoginHandler(db))))] *)
Definition route_login (nanos unix : Z) (env : LoginEnv) (r : Request)
    : gmap string Bucket * DB -> Response unit * (gmap string Bucket * DB) :=
  RateLimitMiddleware (AuthMiddleware hmac (LoginHandler env) unix) nanos r.

(** One request served, or one query of the sweeper. *)
Inductive Op :=
| PostToken (unix : Z) (r : Request)
| PostInvite (unix : Z) (env : InviteEnv) (r : Request)
| PostRegister (unix : Z) (env : RegisterEnv) (r : Request)
| PostLogin (nanos unix : Z) (env : LoginEnv) (r : Request)
| SweeperQuery (now : Z) (err : option string).

(** The state after an operation. *)
Definition apply_op (op : Op) (st : gmap string Bucket * DB) : gmap string Bucket * DB :=
  match op with
  | PostToken unix r => st
  | PostInvite unix env r => (st.1, (route_invite unix env r st.2).2)
  | PostRegister unix env r => (st.1, (route_register unix env r st.2).2)
  | PostLogin nanos unix env r => (route_login nanos unix env r st).2
  | SweeperQuery now err => st
  end.

Definition apply_ops (ops : list Op) (st : gmap string Bucket * DB)
    : gmap string Bucket * DB :=
  fold_left (fun st op => apply_op op st) ops st.

End Routes.

(** * Vocabulary of the properties, and sample data *)

(** The claims map [AuthMiddleware] builds before it parses. *)
Definition seeded (r : Request) (now : Z) : gmap string GoValue :=
  <["email" := GoString (FormValue r "email")]>
    (<["expiry" := GoInt64 (twoHoursFrom now)]> ∅).

(** A stand-in for HMAC in the examples: it depends on the key and on
    the signed "email" and "expiry" claims. *)
Definition sample_hmac (m : SigningMethod) (key : string)
    (input : SigningMethod * gmap string JSON) : string :=
  match snd input !! "email", snd input !! "expiry" with
  | Some (JString e), Some (JNumber n) =>
      "mac(" +:+ key +:+ "," +:+ e +:+ "," +:+ base64.digit (n mod 64) +:+ ")"
  | _, _ => "mac()"
  end.

Definition no_user : User := mkUser "" "" "".

(** a handler that answers 200 and counts its calls *)
Definition sample_next (r : Request) (calls : nat) : Response unit * nat :=
  (mkResponse StatusOK (Text "ok"), Datatypes.S calls).

(** the token issued to a@x.com at Unix second 1700000000 *)
Definition sample_token : TokenString :=
  match GenerateJWTToken sample_hmac 1700000000 "a@x.com" with
  | inl tok => tok
  | inr _ => Plain ""
  end.

Definition bearer_request (tok : TokenString) : Request :=
  mkRequest "POST" [Plain "Bearer"; tok] ∅ ∅ no_user "1.2.3.4:5".

Definition token_request (postForm : gmap string (list string)) : Request :=
  mkRequest "POST" [Plain ""] ∅ postForm no_user "1.2.3.4:5".

(** *** Invitation codes *)

(** no call of [RegisterHandler] fails: every statement succeeds and
    bcrypt hashes the password *)
Definition untroubled (env : RegisterEnv) (r : Request) : Prop :=
  err_codeExists env = None /\ err_IsCodeUsed env = None /\ err_isValidCode env = None
  /\ (exists h, bcrypt_GenerateFromPassword env (Password (Body r)) = inl h)
  /\ err_insert_user env = None /\ err_update env = None.

(** a record exists for the pair (code, email) *)
Definition has_record (c e : string) (db : DB) : Prop :=
  exists row, In row (invitation_codes db) /\ inv_code row = c /\ inv_email row = e.

(** a record for the pair has [used = true] *)
Definition has_used_record (c e : string) (db : DB) : Prop :=
  exists row, In row (invitation_codes db) /\ inv_code row = c /\ inv_email row = e
              /\ inv_used row = true.

(** a record for the pair is unused and inside the window the third
    query allows: [now] is less than two minutes past [expires_at] *)
Definition has_live_record (now : Z) (c e : string) (db : DB) : Prop :=
  exists row t, In row (invitation_codes db) /\ inv_code row = c /\ inv_email row = e
                /\ inv_used row = false /\ inv_expires_at row = Some t
                /\ now < t + minutes 2.

(** The validity rule in the words of the specification:
    [used = false AND now < expires_at AND bound_email = claimed_email]. *)
Definition valid_for_consumption_spec (now : Z) (c e : string) (db : DB) : Prop :=
  exists row t, In row (invitation_codes db) /\ inv_code row = c /\ inv_email row = e
                /\ inv_used row = false /\ inv_expires_at row = Some t /\ now < t.

(** every used record of [db] is still a record of [db'], still used *)
Definition used_kept (db db' : DB) : Prop :=
  forall row, In row (invitation_codes db) -> inv_used row = true ->
              In row (invitation_codes db').

(** an environment in which nothing fails; bcrypt is a stand-in *)
Definition calm (now : Z) : RegisterEnv :=
  mkRegisterEnv now None None None (fun pw => inl ("$2a$10$" +:+ pw)) None 1 None.

Definition register_request (u : User) : Request :=
  mkRequest "POST" [Plain ""] ∅ ∅ u "1.2.3.4:5".

(** the code "abc123" issued to a@x.com, expiring at second 1000 *)
Definition one_code (used : bool) : DB :=
  mkDB [mkInvitation 1 "abc123" "a@x.com" used (Some (seconds 1000))] [] [].

Definition alice : User := mkUser "a@x.com" "secret" "abc123".

Definition sample_invite_env : InviteEnv :=
  mkInviteEnv (inl [1; 2; 3; 4; 5; 6; 7; 8; 9; 10; 11; 12; 13; 14; 15; 16]) None 2
    (Some (seconds 2000)).

Definition sample_ops : list Op :=
  [PostInvite 1700000000 sample_invite_env (bearer_request sample_token);
   SweeperQuery (seconds 35) None;
   PostRegister 1700000000 (calm (seconds 36))
     (mkRequest "POST" [Plain "Bearer"; sample_token] ∅ ∅
        (mkUser "a@x.com" "secret" "AQIDBAUGBwgJCgsMDQ4PEA==") "1.2.3.4:5")].

(** *** Login *)

(** bcrypt is a stand-in: the hash of [pw] is "$2a$10$" followed by [pw] *)
Definition sample_login_env : LoginEnv :=
  mkLoginEnv (fun h pw => String.eqb h ("$2a$10$" +:+ pw)) None None None.

(** one account, a@x.com with password "secret" *)
Definition one_user : DB := mkDB [] [mkUserRow 7 "a@x.com" "$2a$10$secret"] [].

Definition login_request (u : User) : Request :=
  mkRequest "POST" [Plain "Bearer"; sample_token] ∅ ∅ u "1.2.3.4:5".

(** *** Sweeper and [main] *)

(** a store that is down, and one that holds a code long expired *)
Definition store_down : Snapshot := mkSnapshot (one_code false) (seconds 5000) (Some "EOF").
Definition store_up : Snapshot := mkSnapshot (one_code false) (seconds 5000) None.

(** a notifier that fails for every address but b@y.com *)
Definition flaky_notify (invitation : Invitation) : list Event * option string :=
  ([Printed ("Resending invitation to " +:+ Email_ invitation)],
   if String.eqb (Email_ invitation) "b@y.com" then None else Some "smtp: timeout").

(** *** Codes *)

(** a byte of a code that may stand in a URL as it is: a letter, a
    digit, '-', '_', or the padding '=' *)
Definition url_safe (c : ascii) : bool :=
  let n := nat_of_ascii c in
  ((65 <=? n)%nat && (n <=? 90)%nat) || ((97 <=? n)%nat && (n <=? 122)%nat)
  || ((48 <=? n)%nat && (n <=? 57)%nat)
  || (n =? 45)%nat || (n =? 95)%nat || (n =? 61)%nat.

Definition is_byte (b : Z) : Prop := 0 <= b < 256.

(** *** Traces and request sequences *)

Definition is_query (e : Event) : bool :=
  match e with Queried => true | _ => false end.

Definition is_sleep (e : Event) : bool :=
  match e with Slept _ => true | _ => false end.

(** how many events of a kind a trace holds *)
Definition count_events (kind : Event -> bool) (trace : list Event) : nat :=
  List.length (List.filter kind trace).

(** the seconds slept in a trace *)
Fixpoint slept (trace : list Event) : Z :=
  match trace with
  | [] => 0
  | Slept d :: rest => d + slept rest
  | _ :: rest => slept rest
  end.

(** the snapshots whose query succeeds *)
Definition answered (store : list Snapshot) : list Snapshot :=
  List.filter (fun s => match snap_err s with None => true | Some _ => false end) store.

(** instants that do not go back, from [t] on *)
Fixpoint nondecreasing (t : Z) (times : list Z) : Prop :=
  match times with
  | [] => True
  | t' :: rest => t <= t' /\ nondecreasing t' rest
  end.

(** one client's request served at each of the instants in turn, by the
    limiter in front of the handler that counts its calls *)
Definition serve_at (times : list Z) (r : Request) (st : gmap string Bucket * nat)
    : gmap string Bucket * nat :=
  fold_left (fun st t => (RateLimitMiddleware sample_next t r st).2) times st.

(** *** Strings *)

(** every byte is below 128 *)
Definition ascii_only (s : string) : Prop :=
  Forall (fun c => (nat_of_ascii c < 128)%nat) (list_ascii_of_string s).

(** the byte FF, which starts no UTF-8 sequence, followed by "@x.com" *)
Definition invalid_utf8_email : string := String (ascii_of_nat 255) "@x.com".

(** *** Registration as a transaction *)

(** "A single logical transaction", in the words of the specification:
    the user is registered and the code consumed together, or neither
    write is there. *)
Definition single_transaction_spec (r : Request) (db db' : DB) : Prop :=
  (users db' = users db /\ invitation_codes db' = invitation_codes db)
  \/ (users db' <> users db
      /\ has_used_record (Code (Body r)) (Email (Body r)) db').

(** nothing fails but the UPDATE *)
Definition update_fails : RegisterEnv :=
  mkRegisterEnv (seconds 30) None None None (fun pw => inl ("$2a$10$" +:+ pw)) None 1
    (Some "pq: connection reset").

(** "A record exists unused but past the validity window", with the
    window of the specification ([now < expires_at]). *)
Definition expired_spec (now : Z) (c e : string) (db : DB) : Prop :=
  has_record c e db /\ ~ has_used_record c e db
  /\ ~ valid_for_consumption_spec now c e db.

(** *** A code and its records *)

(** every record that carries the code is used *)
Definition all_used (c : string) (db : DB) : Prop :=
  forall row, In row (invitation_codes db) -> inv_code row = c -> inv_used row = true.

(** the code one run of the invitation handler issues, if it gets its
    random bytes *)
Definition issued_code_of (env : InviteEnv) : option string :=
  match rand_Read env with
  | inl codeBytes => Some (base64.EncodeToString codeBytes)
  | inr _ => None
  end.

(** the code an operation issues, if it is a request to /invite *)
Definition issued_code (op : Op) : option string :=
  match op with
  | PostInvite _ env _ => issued_code_of env
  | _ => None
  end.

(** *** Requests the middleware forwards *)

(** the header carries a well-formed token whose registered claims
    hold at [now], whose signature verifies under [jwtKey], and whose
    "expiry" is a number other than 0 *)
Definition admissible
    (hmac : SigningMethod -> string -> SigningMethod * gmap string JSON -> string)
    (now : Z) (r : Request) : Prop :=
  exists t n,
    ExtractTokenFromHeader r = Compact t
    /\ Valid (unmarshal <$> payload t) now = true
    /\ Verify hmac (alg t) (alg t, payload t) (signature t) jwtKey = true
    /\ payload t !! "expiry" = Some (JNumber n)
    /\ n <> 0.

(** * Properties *)

(** ** Token service *)

Section TokenServiceFacts.

Variable hmac : SigningMethod -> string -> SigningMethod * gmap string JSON -> string.
Context {S A : Type}.
Variable next : Request -> S -> Response A * S.

(** The middleware in one piece: it forwards exactly the well-formed
    tokens whose registered claims and signature verify and whose
    "expiry" entry decodes to a number other than 0. *)
Lemma AuthMiddleware_cases (now : Z) (r : Request) (s : S) :
  AuthMiddleware hmac next now r s =
    match ExtractTokenFromHeader r with
    | Plain tok =>
        if String.eqb tok "" then
          (Error "Authorization header not found" StatusUnauthorized, s)
        else (Error "Invalid token" StatusUnauthorized, s)
    | Compact t =>
        let claims := (unmarshal <$> payload t) ∪ seeded r now in
        if Valid claims now && Verify hmac (alg t) (alg t, payload t) (signature t) jwtKey
        then
          match payload t !! "expiry" with
          | Some (JNumber n) =>
              if n =? 0 then (Error "Expired token" StatusUnauthorized, s) else next r s
          | _ => (Error "Expired token" StatusUnauthorized, s)
          end
        else (Error "Invalid token" StatusUnauthorized, s)
    end.
Proof.
  unfold AuthMiddleware. fold (seeded r now).
  destruct (ExtractTokenFromHeader r) as [tok|t]; simpl.
  - destruct (String.eqb tok ""); reflexivity.
  - destruct (Valid _ now && Verify hmac _ _ _ _); simpl; [|reflexivity].
    rewrite lookup_union, lookup_fmap.
    destruct (payload t !! "expiry") as [j|] eqn:E; simpl.
    + destruct j; reflexivity.
    + unfold seeded. rewrite lookup_insert_ne by discriminate.
      rewrite lookup_insert_eq. reflexivity.
Qed.

(** Every answer of the middleware itself is a 401 that leaves the
    state alone; otherwise the request went to the wrapped handler. *)
Lemma AuthMiddleware_rejects_or_forwards (now : Z) (r : Request) (s : S) :
  (exists msg, AuthMiddleware hmac next now r s = (Error msg StatusUnauthorized, s))
  \/ AuthMiddleware hmac next now r s = next r s.
Proof.
  rewrite AuthMiddleware_cases.
  destruct (ExtractTokenFromHeader r) as [tok|t]; simpl.
  - destruct (String.eqb tok ""); left; eauto.
  - destruct (Valid _ now && Verify hmac _ _ _ _); [|left; eauto].
    destruct (payload t !! "expiry") as [[n| | | |]|]; try (left; eauto; fail).
    destruct (n =? 0); [left; eauto | right; reflexivity].
Qed.

(** A string that is not a serialised token is rejected. *)
Lemma AuthMiddleware_rejects_malformed (now : Z) (r : Request) (s : S) (tok : string) :
  ExtractTokenFromHeader r = Plain tok ->
  exists msg, AuthMiddleware hmac next now r s = (Error msg StatusUnauthorized, s).
Proof.
  intros E. rewrite AuthMiddleware_cases, E.
  destruct (String.eqb tok ""); eauto.
Qed.

(** A token whose signature does not verify is rejected. *)
Lemma AuthMiddleware_rejects_bad_signature (now : Z) (r : Request) (s : S) (t : Jws) :
  ExtractTokenFromHeader r = Compact t ->
  Verify hmac (alg t) (alg t, payload t) (signature t) jwtKey = false ->
  AuthMiddleware hmac next now r s = (Error "Invalid token" StatusUnauthorized, s).
Proof.
  intros E V. rewrite AuthMiddleware_cases, E. simpl.
  rewrite V, andb_false_r. reflexivity.
Qed.

(** A token without an "expiry" claim, or with one that is 0, is
    rejected. *)
Lemma AuthMiddleware_rejects_absent_or_zero_expiry (now : Z) (r : Request) (s : S) (t : Jws) :
  ExtractTokenFromHeader r = Compact t ->
  payload t !! "expiry" = None \/ payload t !! "expiry" = Some (JNumber 0) ->
  exists msg, AuthMiddleware hmac next now r s = (Error msg StatusUnauthorized, s).
Proof.
  intros E H. rewrite AuthMiddleware_cases, E. simpl.
  destruct (Valid _ now && Verify hmac _ _ _ _); [|eauto].
  destruct H as [-> | ->]; simpl; eauto.
Qed.

(** What [GenerateJWTToken] returns. *)
Lemma GenerateJWTToken_eq (issued : Z) (username : string) :
  GenerateJWTToken hmac issued username =
    let p : gmap string JSON :=
      <["email" := JString (utf8.coerce username)]>
        (<["expiry" := JNumber (twoHoursFrom issued)]> ∅) in
    inl (Compact (mkJws HS256 p (hmac HS256 jwtKey (HS256, p)))).
Proof.
  unfold GenerateJWTToken, SignedString, Sign. simpl.
  rewrite !fmap_insert, fmap_empty. reflexivity.
Qed.

(** A token is presented as [Authorization: Bearer <token>]. *)
Lemma ExtractTokenFromHeader_bearer (r : Request) (tok : TokenString) :
  Authorization r = [Plain "Bearer"; tok] -> ExtractTokenFromHeader r = tok.
Proof. intros E. unfold ExtractTokenFromHeader. rewrite E. reflexivity. Qed.

(** An issued token passes the middleware at every later or earlier
    instant: the issued "expiry" is never compared with the clock. *)
Lemma AuthMiddleware_issued (issued now : Z) (username : string) (tok : TokenString)
    (r : Request) (s : S) :
  GenerateJWTToken hmac issued username = inl tok ->
  Authorization r = [Plain "Bearer"; tok] ->
  twoHoursFrom issued <> 0 ->
  AuthMiddleware hmac next now r s = next r s.
Proof.
  intros G H NZ. rewrite GenerateJWTToken_eq in G. simpl in G.
  injection G as <-.
  rewrite AuthMiddleware_cases, (ExtractTokenFromHeader_bearer _ _ H). simpl.
  rewrite String.eqb_refl, andb_true_r.
  assert (V : Valid
     ((unmarshal <$> (<["email":=JString (utf8.coerce username)]>
                        (<["expiry":=JNumber (twoHoursFrom issued)]> ∅)))
      ∪ seeded r now) now = true).
  { unfold Valid, VerifyClaim, seeded.
    rewrite !lookup_union, !lookup_fmap, !lookup_insert. reflexivity. }
  rewrite V.
  rewrite lookup_insert_ne by discriminate. rewrite lookup_insert_eq.
  destruct (twoHoursFrom issued =? 0) eqn:Z0; [|reflexivity].
  apply Z.eqb_eq in Z0. contradiction.
Qed.

End TokenServiceFacts.

(** C1, the part the code breaks.  A token that [GenerateJWTToken]
    issued at [issued] is still forwarded by [AuthMiddleware] when the
    clock has passed the issued expiry ([issued] plus two hours): the
    claim says validation fails from then on. *)
Theorem issued_token_outlives_its_expiry :
  forall (hmac : SigningMethod -> string -> SigningMethod * gmap string JSON -> string)
         (S A : Type) (next : Request -> S -> Response A * S)
         (issued now : Z) (username : string) (tok : TokenString) (r : Request) (s : S),
    GenerateJWTToken hmac issued username = inl tok ->
    Authorization r = [Plain "Bearer"; tok] ->
    0 <= issued ->
    twoHoursFrom issued < now ->
    AuthMiddleware hmac next now r s = next r s.
Proof.
  intros hmac S A next issued now username tok r s G H I _.
  apply (AuthMiddleware_issued hmac next issued now username tok r s G H).
  unfold twoHoursFrom. lia.
Qed.

Lemma issued_token_outlives_its_expiry_witness :
  AuthMiddleware sample_hmac sample_next 1700007201 (bearer_request sample_token) 0%nat
  = (mkResponse StatusOK (Text "ok"), 1%nat).
Proof.
  apply (issued_token_outlives_its_expiry sample_hmac nat unit sample_next
           1700000000 1700007201 "a@x.com" sample_token
           (bearer_request sample_token) 0%nat).
  - vm_compute. reflexivity.
  - reflexivity.
  - lia.
  - unfold twoHoursFrom. lia.
Defined.

(** C10.  When the Email form value is absent or empty
    ([PostFormValue] is "" in both cases) [GenerateTokenHandler] answers
    401 with the fixed text, whatever the signing function is; and when
    its answer carries a token, the subject is not empty and the token
    is the one issued for it. *)
Theorem GenerateTokenHandler_requires_email :
  forall (hmac : SigningMethod -> string -> SigningMethod * gmap string JSON -> string)
         (now : Z) (r : Request),
    (PostFormValue r "Email" = "" ->
       GenerateTokenHandler hmac now r
       = Error "Email header not found" StatusUnauthorized)
    /\ (forall t : Token,
          body (GenerateTokenHandler hmac now r) = Json t ->
          PostFormValue r "Email" <> ""
          /\ GenerateJWTToken hmac now (PostFormValue r "Email") = inl (Token_ t)).
Proof.
  intros hmac now r. unfold GenerateTokenHandler. split.
  - intros ->. reflexivity.
  - intros t. destruct (String.eqb (PostFormValue r "Email") "") eqn:E.
    + discriminate.
    + apply String.eqb_neq in E.
      destruct (GenerateJWTToken hmac now (PostFormValue r "Email")) as [tok|err].
      * simpl. intros [= <-]. split; [assumption | reflexivity].
      * discriminate.
Qed.

Lemma GenerateTokenHandler_requires_email_witness :
  GenerateTokenHandler sample_hmac 1700000000 (token_request ∅)
  = Error "Email header not found" StatusUnauthorized
  /\ GenerateTokenHandler sample_hmac 1700000000 (token_request {["Email" := [""]]})
     = Error "Email header not found" StatusUnauthorized
  /\ PostFormValue (token_request {["Email" := ["a@x.com"]]}) "Email" <> "".
Proof.
  split; [|split].
  - apply (proj1 (GenerateTokenHandler_requires_email sample_hmac 1700000000
                    (token_request ∅))).
    reflexivity.
  - apply (proj1 (GenerateTokenHandler_requires_email sample_hmac 1700000000
                    (token_request {["Email" := [""]]}))).
    reflexivity.
  - apply (proj2 (GenerateTokenHandler_requires_email sample_hmac 1700000000
                    (token_request {["Email" := ["a@x.com"]]}))
             (mkToken sample_token (twoHoursFrom 1700000000))).
    vm_compute. reflexivity.
Defined.

(** ** Invitation registry *)

(** [RegisterHandler] in one piece: the checks in program order, each
    with the response it writes and the tables it leaves. *)
Lemma RegisterHandler_cases (env : RegisterEnv) (r : Request) (db : DB) :
  RegisterHandler env r db =
    let user := Body r in
    if negb (String.eqb (Method r) "POST") then
      (Error "Only POST method is allowed!" StatusMethodNotAllowed, db)
    else match err_codeExists env with
    | Some err => (Error err StatusInternalServerError, db)
    | None =>
    if negb (select_exists (where_code_email (Code user) (Email user)) db) then
      (Error "Invalid invitation code" StatusBadRequest, db)
    else match err_IsCodeUsed env with
    | Some err => (Error err StatusInternalServerError, db)
    | None =>
    if select_exists (where_code_used_email (Code user) (Email user)) db then
      (Error "Used invitation code" StatusBadRequest, db)
    else match err_isValidCode env with
    | Some err => (Error err StatusInternalServerError, db)
    | None =>
    if negb (select_exists
               (where_code_unused_email_live (reg_NOW env) (Code user) (Email user)) db)
    then (Error "Expired invitation code" StatusBadRequest, db)
    else match bcrypt_GenerateFromPassword env (Password user) with
    | inr err => (Error err StatusInternalServerError, db)
    | inl hashedPassword =>
    match err_insert_user env with
    | Some err => (Error err StatusInternalServerError, db)
    | None =>
    let db1 := insert_user (reg_new_id env) (Email user) hashedPassword db in
    match err_update env with
    | Some err => (Error err StatusInternalServerError, db1)
    | None => (mkResponse StatusCreated (Json user), update_used (Code user) db1)
    end end end end end end.
Proof.
  unfold RegisterHandler, run, bind, reject_if, reject_err, reply, ret, get, put.
  cbv zeta.
  destruct (negb (String.eqb (Method r) "POST")); [reflexivity|].
  destruct (err_codeExists env); [reflexivity|].
  destruct (negb (select_exists _ db)); [reflexivity|].
  destruct (err_IsCodeUsed env); [reflexivity|].
  destruct (select_exists (where_code_used_email _ _) db); [reflexivity|].
  destruct (err_isValidCode env); [reflexivity|].
  destruct (negb (select_exists _ db)); [reflexivity|].
  destruct (bcrypt_GenerateFromPassword env _); [|reflexivity].
  destruct (err_insert_user env); [reflexivity|].
  destruct (err_update env); reflexivity.
Qed.

(** The three queries, read on the rows. *)
Lemma select_code_email (c e : string) (db : DB) :
  select_exists (where_code_email c e) db = true <-> has_record c e db.
Proof.
  unfold select_exists, has_record, where_code_email.
  rewrite existsb_exists. split.
  - intros (row & I & H). apply andb_prop in H as [H1 H2].
    apply String.eqb_eq in H1, H2. eauto.
  - intros (row & I & H1 & H2). exists row. split; [assumption|].
    rewrite H1, H2, !String.eqb_refl. reflexivity.
Qed.

Lemma select_code_used_email (c e : string) (db : DB) :
  select_exists (where_code_used_email c e) db = true <-> has_used_record c e db.
Proof.
  unfold select_exists, has_used_record, where_code_used_email.
  rewrite existsb_exists. split.
  - intros (row & I & H). apply andb_prop in H as [H H3].
    apply andb_prop in H as [H1 H2].
    apply String.eqb_eq in H1, H3. exists row. auto.
  - intros (row & I & H1 & H2 & H3). exists row. split; [assumption|].
    rewrite H1, H2, H3, !String.eqb_refl. reflexivity.
Qed.

Lemma select_code_unused_email_live (now : Z) (c e : string) (db : DB) :
  select_exists (where_code_unused_email_live now c e) db = true
  <-> has_live_record now c e db.
Proof.
  unfold select_exists, has_live_record, where_code_unused_email_live,
    expires_after_grace.
  rewrite existsb_exists. split.
  - intros (row & I & H). apply andb_prop in H as [H H4].
    apply andb_prop in H as [H H3]. apply andb_prop in H as [H1 H2].
    apply String.eqb_eq in H1, H3. apply negb_true_iff in H2.
    destruct (inv_expires_at row) as [t|] eqn:E; [|discriminate].
    apply Z.ltb_lt in H4. exists row, t. repeat split; auto. lia.
  - intros (row & t & I & H1 & H2 & H3 & H4 & H5). exists row. split; [assumption|].
    rewrite H1, H2, H3, H4, !String.eqb_refl. simpl.
    apply Z.ltb_lt. lia.
Qed.

(** With nothing failing, a POST ends in one of four ways, decided by
    the three queries in their order. *)
Lemma RegisterHandler_untroubled (env : RegisterEnv) (r : Request) (db : DB) :
  Method r = "POST" -> untroubled env r ->
  let c := Code (Body r) in
  let e := Email (Body r) in
  (RegisterHandler env r db).1 =
    if negb (select_exists (where_code_email c e) db) then
      Error "Invalid invitation code" StatusBadRequest
    else if select_exists (where_code_used_email c e) db then
      Error "Used invitation code" StatusBadRequest
    else if negb (select_exists (where_code_unused_email_live (reg_NOW env) c e) db) then
      Error "Expired invitation code" StatusBadRequest
    else mkResponse StatusCreated (Json (Body r)).
Proof.
  intros M (E1 & E2 & E3 & (h & E4) & E5 & E6). cbv zeta.
  rewrite RegisterHandler_cases. cbv zeta.
  rewrite M, E1, E2, E3, E4, E5, E6. simpl.
  destruct (select_exists (where_code_email _ _) db); [|reflexivity]. simpl.
  destruct (select_exists (where_code_used_email _ _) db); [reflexivity|].
  destruct (select_exists (where_code_unused_email_live _ _ _) db); reflexivity.
Qed.

Lemma calm_untroubled (now : Z) (r : Request) : untroubled (calm now) r.
Proof. unfold untroubled, calm; simpl. repeat split; eauto. Qed.

(** C2 as stated fails.  A code whose [expires_at] is second 1000 is
    consumed at second 1060: the registration is accepted although the
    clock is past [expires_at]. *)
Lemma grace_after_expiry_counterexample :
  ~ (status (RegisterHandler (calm (seconds 1060)) (register_request alice)
               (one_code false)).1 = StatusCreated
     <-> valid_for_consumption_spec (seconds 1060) "abc123" "a@x.com" (one_code false)).
Proof.
  intros [H _].
  destruct (H eq_refl) as (row & t & I & _ & _ & _ & E & L).
  destruct I as [<- | []]. simpl in E. injection E as <-.
  unfold seconds in L. lia.
Qed.

(** C2, amended.  With no call failing, a POST registration is accepted
    (201) exactly when no record for the claimed (code, email) is used
    and some record for it is unused with the clock less than two
    minutes past its [expires_at]. *)
Theorem consumption_accepted_iff :
  forall (env : RegisterEnv) (r : Request) (db : DB),
    Method r = "POST" -> untroubled env r ->
    (status (RegisterHandler env r db).1 = StatusCreated
     <-> ~ has_used_record (Code (Body r)) (Email (Body r)) db
         /\ has_live_record (reg_NOW env) (Code (Body r)) (Email (Body r)) db).
Proof.
  intros env r db M U.
  rewrite (RegisterHandler_untroubled env r db M U). cbv zeta.
  rewrite <- select_code_used_email, <- select_code_unused_email_live.
  destruct (select_exists (where_code_email _ _) db) eqn:Q1; simpl.
  - destruct (select_exists (where_code_used_email _ _) db) eqn:Q2; simpl.
    + split; [discriminate | intros [H _]; congruence].
    + destruct (select_exists (where_code_unused_email_live _ _ _) db) eqn:Q3; simpl.
      * split; [intros _; split; congruence | reflexivity].
      * split; [discriminate | intros [_ H]; discriminate].
  - split; [discriminate|]. intros [_ H3].
    apply select_code_unused_email_live in H3.
    destruct H3 as (row & t & I & H1 & H2 & _).
    assert (has_record (Code (Body r)) (Email (Body r)) db) as H by (exists row; auto).
    apply select_code_email in H. congruence.
Qed.

Lemma consumption_accepted_iff_witness :
  status (RegisterHandler (calm (seconds 1060)) (register_request alice)
            (one_code false)).1 = StatusCreated
  <-> ~ has_used_record "abc123" "a@x.com" (one_code false)
      /\ has_live_record (seconds 1060) "abc123" "a@x.com" (one_code false).
Proof.
  apply (consumption_accepted_iff (calm (seconds 1060)) (register_request alice)
           (one_code false)).
  - reflexivity.
  - unfold untroubled; simpl. repeat split; eexists; reflexivity.
Defined.

(** A 201 is written only after the UPDATE: a record for the pair is
    then in the table, used, and so is every record with that code. *)
Lemma registration_and_mark_used_aux (env : RegisterEnv) (r : Request) (db : DB) :
  status (RegisterHandler env r db).1 = StatusCreated ->
  has_used_record (Code (Body r)) (Email (Body r)) (RegisterHandler env r db).2.
Proof.
  rewrite RegisterHandler_cases. cbv zeta.
  destruct (negb (String.eqb (Method r) "POST")); [discriminate|].
  destruct (err_codeExists env); [discriminate|].
  destruct (select_exists (where_code_email _ _) db) eqn:Q1; simpl; [|discriminate].
  destruct (err_IsCodeUsed env); [discriminate|].
  destruct (select_exists (where_code_used_email _ _) db); [discriminate|].
  destruct (err_isValidCode env); [discriminate|].
  destruct (select_exists (where_code_unused_email_live _ _ _) db); simpl; [|discriminate].
  destruct (bcrypt_GenerateFromPassword env _) as [h|]; [|discriminate].
  destruct (err_insert_user env) as [e|]; [discriminate|].
  destruct (err_update env); [discriminate|]. simpl. intros _.
  apply select_code_email in Q1. destruct Q1 as (row & I & H1 & H2).
  exists (mark_used (Code (Body r)) row). split; [apply in_map; assumption|].
  unfold mark_used. rewrite H1, String.eqb_refl. simpl. auto.
Qed.

(** C3 as stated fails.  The user INSERT succeeds and the UPDATE
    fails: the answer is 500, the user is in the table and the code is
    still unused.  The two writes are not one transaction. *)
Lemma registration_not_transactional_counterexample :
  let res := RegisterHandler update_fails (register_request alice) (one_code false) in
  res.1 = Error "pq: connection reset" StatusInternalServerError
  /\ users res.2 = [mkUserRow 1 "a@x.com" "$2a$10$secret"]
  /\ invitation_codes res.2 = invitation_codes (one_code false)
  /\ ~ single_transaction_spec (register_request alice) (one_code false) res.2.
Proof.
  cbv zeta. split; [reflexivity|]. split; [reflexivity|]. split; [reflexivity|].
  intros [[U _] | [_ (row & I & _ & _ & H)]].
  - discriminate U.
  - destruct I as [<- | []]. discriminate H.
Qed.

(** C3, amended.  The registration and the marking are two statements,
    not a transaction.  [RegisterHandler] answers 201 only after both:
    the user is then in the table, with the hash bcrypt returned, a
    record for the claimed (code, email) is used and so is every
    record with that code.  When the INSERT of the user fails the
    tables are left as they were: no record is marked.  And the tables
    it leaves are always one of three: as they were; both writes, with
    the 201; or, when the UPDATE failed, the user inserted and the
    invitation records as they were, answered 500. *)
Theorem registration_and_mark_used :
  forall (env : RegisterEnv) (r : Request) (db : DB),
    let res := RegisterHandler env r db in
    (status res.1 = StatusCreated ->
       (exists h, bcrypt_GenerateFromPassword env (Password (Body r)) = inl h
                  /\ users res.2
                     = (users db ++ [mkUserRow (reg_new_id env) (Email (Body r)) h])%list)
       /\ has_used_record (Code (Body r)) (Email (Body r)) res.2
       /\ forall row, In row (invitation_codes res.2) ->
                      inv_code row = Code (Body r) -> inv_used row = true)
    /\ (is_Some (err_insert_user env) -> res.2 = db)
    /\ (res.2 = db
        \/ (status res.1 = StatusCreated /\ users res.2 <> users db
            /\ has_used_record (Code (Body r)) (Email (Body r)) res.2)
        \/ (exists h err,
              bcrypt_GenerateFromPassword env (Password (Body r)) = inl h
              /\ err_update env = Some err
              /\ res.1 = Error err StatusInternalServerError
              /\ users res.2
                 = (users db ++ [mkUserRow (reg_new_id env) (Email (Body r)) h])%list
              /\ invitation_codes res.2 = invitation_codes db)).
Proof.
  intros env r db. cbv zeta. rewrite RegisterHandler_cases. cbv zeta.
  destruct (negb (String.eqb (Method r) "POST"));
    [split; [discriminate | split; [reflexivity | left; reflexivity]]|].
  destruct (err_codeExists env);
    [split; [discriminate | split; [reflexivity | left; reflexivity]]|].
  destruct (select_exists (where_code_email _ _) db) eqn:Q1; simpl;
    [|split; [discriminate | split; [reflexivity | left; reflexivity]]].
  destruct (err_IsCodeUsed env);
    [split; [discriminate | split; [reflexivity | left; reflexivity]]|].
  destruct (select_exists (where_code_used_email _ _) db);
    [split; [discriminate | split; [reflexivity | left; reflexivity]]|].
  destruct (err_isValidCode env);
    [split; [discriminate | split; [reflexivity | left; reflexivity]]|].
  destruct (select_exists (where_code_unused_email_live _ _ _) db); simpl;
    [|split; [discriminate | split; [reflexivity | left; reflexivity]]].
  destruct (bcrypt_GenerateFromPassword env _) as [h|];
    [|split; [discriminate | split; [reflexivity | left; reflexivity]]].
  destruct (err_insert_user env) as [e|];
    [split; [discriminate | split; [reflexivity | left; reflexivity]]|].
  apply select_code_email in Q1. destruct Q1 as (row & I & H1 & H2).
  assert (USED : has_used_record (Code (Body r)) (Email (Body r))
                   (update_used (Code (Body r))
                      (insert_user (reg_new_id env) (Email (Body r)) h db))).
  { exists (mark_used (Code (Body r)) row). split; [apply in_map; assumption|].
    unfold mark_used. rewrite H1, String.eqb_refl. simpl. auto. }
  destruct (err_update env) as [e|]; simpl.
  - split; [discriminate|]. split; [intros [x Hx]; discriminate|].
    right. right. exists h, e. auto.
  - split; [|split; [intros [x Hx]; discriminate|]].
    + intros _. split; [eauto|]. split; [exact USED|].
      intros row' I' C'. apply in_map_iff in I' as (row0 & <- & _).
      unfold mark_used in *.
      destruct (String.eqb (inv_code row0) (Code (Body r))) eqn:Q.
      * reflexivity.
      * apply String.eqb_neq in Q. contradiction.
    + right. left. split; [reflexivity|]. split; [|exact USED].
      intros E. apply (f_equal (@List.length UserRow)) in E.
      rewrite length_app in E. simpl in E. lia.
Qed.

Lemma registration_and_mark_used_witness :
  (exists h,
     users (RegisterHandler (calm (seconds 30)) (register_request alice)
              (one_code false)).2
     = [mkUserRow 1 "a@x.com" h])
  /\ (RegisterHandler
        (mkRegisterEnv (seconds 30) None None None (fun pw => inl pw)
           (Some "pq: duplicate key value violates unique constraint") 1 None)
        (register_request alice) (one_code false)).2 = one_code false.
Proof.
  split.
  - destruct (proj1 (registration_and_mark_used (calm (seconds 30))
                       (register_request alice) (one_code false)) eq_refl)
      as [(h & _ & U) _].
    exists h. exact U.
  - apply (proj1 (proj2 (registration_and_mark_used
                    (mkRegisterEnv (seconds 30) None None None (fun pw => inl pw)
                       (Some "pq: duplicate key value violates unique constraint") 1 None)
                    (register_request alice) (one_code false)))).
    simpl. eexists. reflexivity.
Defined.

(** C4 as stated fails.  Sixty seconds after [expires_at] a record for
    the pair exists, unused, and past the validity window of the
    specification ([now < expires_at] no longer holds): the claim has
    the attempt Expired, the code accepts it. *)
Lemma expired_within_grace_counterexample :
  expired_spec (seconds 1060) "abc123" "a@x.com" (one_code false)
  /\ (RegisterHandler (calm (seconds 1060)) (register_request alice) (one_code false)).1
     = mkResponse StatusCreated (Json alice)
  /\ (RegisterHandler (calm (seconds 1060)) (register_request alice) (one_code false)).1
     <> Error "Expired invitation code" StatusBadRequest.
Proof.
  split; [|split; [reflexivity | discriminate]].
  unfold expired_spec. split; [|split].
  - exists (mkInvitation 1 "abc123" "a@x.com" false (Some (seconds 1000))).
    simpl. auto.
  - intros (row & [<- | []] & _ & _ & U). discriminate U.
  - intros (row & t & [<- | []] & _ & _ & _ & E & L). simpl in E.
    injection E as <-. unfold seconds in L. lia.
Qed.

(** C4, amended.  With no call failing, a POST registration is answered
    by the first of the checks that applies, in this order: no record
    for the (code, email) pair (NotFound); a used record for it
    (AlreadyUsed, whatever its expiry); records for it, none used and
    none inside the window of the code, which runs until two minutes
    after [expires_at] (Expired); otherwise the registration goes
    through.  Each of the four outcomes is reached by some request. *)
Theorem consume_checks_in_order :
  (forall (env : RegisterEnv) (r : Request) (db : DB),
     Method r = "POST" -> untroubled env r ->
     let c := Code (Body r) in
     let e := Email (Body r) in
     let resp := (RegisterHandler env r db).1 in
     (~ has_record c e db -> resp = Error "Invalid invitation code" StatusBadRequest)
     /\ (has_used_record c e db -> resp = Error "Used invitation code" StatusBadRequest)
     /\ (has_record c e db -> ~ has_used_record c e db ->
         ~ has_live_record (reg_NOW env) c e db ->
         resp = Error "Expired invitation code" StatusBadRequest)
     /\ (~ has_used_record c e db -> has_live_record (reg_NOW env) c e db ->
         resp = mkResponse StatusCreated (Json (Body r))))
  /\ (exists env r db, Method r = "POST" /\ untroubled env r
        /\ (RegisterHandler env r db).1 = Error "Invalid invitation code" StatusBadRequest)
  /\ (exists env r db, Method r = "POST" /\ untroubled env r
        /\ (RegisterHandler env r db).1 = Error "Used invitation code" StatusBadRequest)
  /\ (exists env r db, Method r = "POST" /\ untroubled env r
        /\ (RegisterHandler env r db).1 = Error "Expired invitation code" StatusBadRequest)
  /\ (exists env r db, Method r = "POST" /\ untroubled env r
        /\ (RegisterHandler env r db).1 = mkResponse StatusCreated (Json (Body r))).
Proof.
  split; [|repeat split].
  - intros env r db M U c e resp. subst resp c e.
    rewrite (RegisterHandler_untroubled env r db M U). cbv zeta.
    rewrite <- select_code_email, <- select_code_used_email,
      <- select_code_unused_email_live.
    destruct (select_exists (where_code_email _ _) db) eqn:Q1;
      destruct (select_exists (where_code_used_email _ _) db) eqn:Q2;
      destruct (select_exists (where_code_unused_email_live _ _ _) db) eqn:Q3;
      simpl; repeat split; intros; try reflexivity; try congruence.
    + (* a used record is a record *)
      apply select_code_used_email in Q2. destruct Q2 as (row & I & H1 & H2 & _).
      assert (has_record (Code (Body r)) (Email (Body r)) db) as R by (exists row; auto).
      apply select_code_email in R. congruence.
    + apply select_code_used_email in Q2. destruct Q2 as (row & I & H1 & H2 & _).
      assert (has_record (Code (Body r)) (Email (Body r)) db) as R by (exists row; auto).
      apply select_code_email in R. congruence.
    + (* a live record is a record *)
      apply select_code_unused_email_live in Q3.
      destruct Q3 as (row & t & I & H1 & H2 & _).
      assert (has_record (Code (Body r)) (Email (Body r)) db) as R by (exists row; auto).
      apply select_code_email in R. congruence.
  - exists (calm (seconds 30)), (register_request (mkUser "a@x.com" "secret" "zzz")),
      (one_code false).
    split; [reflexivity | split; [apply calm_untroubled | reflexivity]].
  - exists (calm (seconds 1300)), (register_request alice), (one_code true).
    split; [reflexivity | split; [apply calm_untroubled | reflexivity]].
  - exists (calm (seconds 1300)), (register_request alice), (one_code false).
    split; [reflexivity | split; [apply calm_untroubled | reflexivity]].
  - exists (calm (seconds 30)), (register_request alice), (one_code false).
    split; [reflexivity | split; [apply calm_untroubled | reflexivity]].
Qed.

Lemma consume_checks_in_order_witness :
  (RegisterHandler (calm (seconds 1300)) (register_request alice) (one_code true)).1
  = Error "Used invitation code" StatusBadRequest.
Proof.
  apply (proj1 (proj2 (proj1 consume_checks_in_order (calm (seconds 1300))
                         (register_request alice) (one_code true) eq_refl
                         (conj eq_refl (conj eq_refl (conj eq_refl
                            (conj (ex_intro _ "$2a$10$secret" eq_refl)
                               (conj eq_refl eq_refl)))))))).
  exists (mkInvitation 1 "abc123" "a@x.com" true (Some (seconds 1000))).
  simpl. repeat split; auto.
Defined.

(** *** No operation resets [used] *)

Lemma used_kept_refl (db : DB) : used_kept db db.
Proof. intros row I _. exact I. Qed.

Lemma used_kept_trans (db1 db2 db3 : DB) :
  used_kept db1 db2 -> used_kept db2 db3 -> used_kept db1 db3.
Proof. intros H12 H23 row I U. apply H23; [apply H12|]; assumption. Qed.

Lemma used_kept_same_codes (db db' : DB) :
  invitation_codes db' = invitation_codes db -> used_kept db db'.
Proof. intros E row I _. rewrite E. exact I. Qed.

Lemma mark_used_of_used (c : string) (row : InvitationRow) :
  inv_used row = true -> mark_used c row = row.
Proof.
  intros U. unfold mark_used. destruct (String.eqb (inv_code row) c); [|reflexivity].
  destruct row; simpl in *. rewrite U. reflexivity.
Qed.

Lemma update_used_kept (c : string) (db : DB) : used_kept db (update_used c db).
Proof.
  intros row I U. simpl. apply in_map_iff. exists row.
  split; [apply mark_used_of_used; exact U | exact I].
Qed.

Lemma insert_invitation_kept (id : Z) (t : option Z) (c e : string) (db : DB) :
  used_kept db (insert_invitation id t c e db).
Proof. intros row I _. simpl. apply in_or_app. left. exact I. Qed.

Lemma RegisterHandler_used_kept (env : RegisterEnv) (r : Request) (db : DB) :
  used_kept db (RegisterHandler env r db).2.
Proof.
  rewrite RegisterHandler_cases. cbv zeta.
  repeat match goal with
         | |- used_kept _ (snd (_, ?d)) => simpl
         | |- used_kept ?d ?d => apply used_kept_refl
         | |- context [match ?x with _ => _ end] => destruct x
         end;
    try apply used_kept_refl.
  - apply used_kept_same_codes. reflexivity.
  - eapply used_kept_trans; [|apply update_used_kept].
    apply used_kept_same_codes. reflexivity.
Qed.

Lemma GenerateInvitationCodeHandler_used_kept (env : InviteEnv) (r : Request) (db : DB) :
  used_kept db (GenerateInvitationCodeHandler env r db).2.
Proof.
  unfold GenerateInvitationCodeHandler, run, bind, reject_err, reply, ret, get, put.
  destruct (rand_Read env); [|apply used_kept_refl].
  destruct (inv_exec_err env); simpl; [apply used_kept_refl|].
  apply insert_invitation_kept.
Qed.

(** [LoginHandler] in one piece. *)
Lemma LoginHandler_cases (env : LoginEnv) (r : Request) (db : DB) :
  LoginHandler env r db =
    let tokenString := ExtractTokenFromHeader r in
    let user := Body r in
    if isEmpty tokenString then
      (Error "Authorization header not found" StatusUnauthorized, db)
    else if negb (String.eqb (Method r) "POST") then
      (Error "Only POST method is allowed!" StatusMethodNotAllowed, db)
    else
      match (if err_select_hash env is Some _ then None
             else select_user (Email user) db) with
      | None => (Error "User not found" StatusUnauthorized, db)
      | Some row =>
          if negb (bcrypt_matches env (usr_password_hash row) (Password user)) then
            (Error "Invalid credential!" StatusMethodNotAllowed, db)
          else
            match err_insert_session env with
            | Some err => (Error err StatusInternalServerError, db)
            | None =>
                (mkResponse StatusOK (Text "Logged in successfully!"),
                 insert_session
                   match (if err_select_id env is Some _ then None
                          else select_user (Email user) db) with
                   | Some row' => usr_id row'
                   | None => 0
                   end tokenString db)
            end
      end.
Proof.
  unfold LoginHandler, run, bind, reject_if, reject_err, reply, ret, get, put.
  cbv zeta.
  destruct (isEmpty (ExtractTokenFromHeader r)); [reflexivity|].
  destruct (negb (String.eqb (Method r) "POST")); [reflexivity|].
  destruct (if err_select_hash env is Some _ then None else select_user _ db) as [row|];
    [|reflexivity].
  destruct (negb (bcrypt_matches env _ _)); [reflexivity|].
  destruct (err_insert_session env); reflexivity.
Qed.

Lemma LoginHandler_same_codes (env : LoginEnv) (r : Request) (db : DB) :
  invitation_codes (LoginHandler env r db).2 = invitation_codes db.
Proof.
  rewrite LoginHandler_cases. cbv zeta.
  destruct (isEmpty (ExtractTokenFromHeader r)); [reflexivity|].
  destruct (negb (String.eqb (Method r) "POST")); [reflexivity|].
  destruct (if err_select_hash env is Some _ then None else select_user _ db) as [row|];
    [|reflexivity].
  destruct (negb (bcrypt_matches env _ _)); [reflexivity|].
  destruct (err_insert_session env); reflexivity.
Qed.

(** The middleware only forwards or turns away: what holds of the
    wrapped handler's effect on the state, and of no effect, holds of
    the effect of the middleware. *)
Lemma AuthMiddleware_state {S A : Type}
    (hmac : SigningMethod -> string -> SigningMethod * gmap string JSON -> string)
    (next : Request -> S -> Response A * S) (now : Z) (r : Request) (s : S)
    (P : S -> Prop) :
  P s -> P (next r s).2 -> P (AuthMiddleware hmac next now r s).2.
Proof.
  intros H0 H1.
  destruct (AuthMiddleware_rejects_or_forwards hmac next now r s) as [[msg ->] | ->];
    assumption.
Qed.

Lemma RateLimitMiddleware_state {S A : Type}
    (next : Request -> S -> Response A * S) (now : Z) (r : Request)
    (st : gmap string Bucket * S) (P : S -> Prop) :
  P st.2 -> P (next r st.2).2 -> P (RateLimitMiddleware next now r st).2.2.
Proof.
  intros H0 H1. unfold RateLimitMiddleware. destruct st as [m s]. simpl in *.
  destruct (m !! RemoteAddr r); destruct (TakeAvailable _ now 1) as [taken tb];
    destruct (taken =? 0); simpl; try assumption;
    destruct (next r s); simpl in *; assumption.
Qed.

Lemma apply_op_used_kept
    (hmac : SigningMethod -> string -> SigningMethod * gmap string JSON -> string)
    (op : Op) (st : gmap string Bucket * DB) :
  used_kept st.2 (apply_op hmac op st).2.
Proof.
  destruct op; simpl; try apply used_kept_refl.
  - apply (AuthMiddleware_state hmac _ unix r st.2 (used_kept st.2));
      [apply used_kept_refl | apply GenerateInvitationCodeHandler_used_kept].
  - apply (AuthMiddleware_state hmac _ unix r st.2 (used_kept st.2));
      [apply used_kept_refl | apply RegisterHandler_used_kept].
  - unfold route_login.
    apply (RateLimitMiddleware_state _ nanos r st (used_kept st.2));
      [apply used_kept_refl|].
    apply (AuthMiddleware_state hmac _ unix r st.2 (used_kept st.2));
      [apply used_kept_refl|].
    apply used_kept_same_codes, LoginHandler_same_codes.
Qed.

Lemma apply_ops_used_kept
    (hmac : SigningMethod -> string -> SigningMethod * gmap string JSON -> string)
    (ops : list Op) (st : gmap string Bucket * DB) :
  used_kept st.2 (apply_ops hmac ops st).2.
Proof.
  revert st. induction ops as [|op ops IH]; intros st; simpl.
  - apply used_kept_refl.
  - eapply used_kept_trans; [apply apply_op_used_kept | apply IH].
Qed.

Lemma has_used_record_kept (c e : string) (db db' : DB) :
  used_kept db db' -> has_used_record c e db -> has_used_record c e db'.
Proof.
  intros K (row & I & H1 & H2 & U). exists row. repeat split; auto.
Qed.

(** A registration that a used record for the pair meets is never
    accepted, and is answered "Used invitation code" when its first two
    queries succeed. *)
Lemma RegisterHandler_on_used (env : RegisterEnv) (r : Request) (db : DB) :
  has_used_record (Code (Body r)) (Email (Body r)) db ->
  status (RegisterHandler env r db).1 <> StatusCreated
  /\ (Method r = "POST" -> err_codeExists env = None -> err_IsCodeUsed env = None ->
      (RegisterHandler env r db).1 = Error "Used invitation code" StatusBadRequest).
Proof.
  intros U.
  assert (Q1 : select_exists (where_code_email (Code (Body r)) (Email (Body r))) db = true).
  { apply select_code_email. destruct U as (row & I & H1 & H2 & _). exists row; auto. }
  apply select_code_used_email in U.
  rewrite RegisterHandler_cases. cbv zeta. rewrite Q1, U. simpl. split.
  - destruct (negb (String.eqb (Method r) "POST")); [discriminate|].
    destruct (err_codeExists env); [discriminate|].
    destruct (err_IsCodeUsed env); discriminate.
  - intros -> -> ->. reflexivity.
Qed.

(** C5 as stated fails.  After a@x.com has registered with "abc123", a
    second attempt with the same code under another email is turned
    away as NotFound ("Invalid invitation code"), not as AlreadyUsed. *)
Lemma second_consume_other_email_counterexample :
  let first := RegisterHandler (calm (seconds 30)) (register_request alice)
                 (one_code false) in
  let second := RegisterHandler (calm (seconds 40))
                  (register_request (mkUser "b@y.com" "secret" "abc123")) first.2 in
  status first.1 = StatusCreated
  /\ second.1 = Error "Invalid invitation code" StatusBadRequest
  /\ second.1 <> Error "Used invitation code" StatusBadRequest.
Proof.
  cbv zeta. split; [reflexivity | split; [reflexivity | discriminate]].
Qed.

(** The tables [RegisterHandler] leaves: as they were, with the user
    inserted, or with the user inserted and the code marked. *)
Lemma RegisterHandler_tables_aux (env : RegisterEnv) (r : Request) (db : DB) :
  (RegisterHandler env r db).2 = db
  \/ (exists h, (RegisterHandler env r db).2
                = insert_user (reg_new_id env) (Email (Body r)) h db)
  \/ (exists h, (RegisterHandler env r db).2
                = update_used (Code (Body r))
                    (insert_user (reg_new_id env) (Email (Body r)) h db)).
Proof.
  rewrite RegisterHandler_cases. cbv zeta.
  destruct (negb (String.eqb (Method r) "POST")); [left; reflexivity|].
  destruct (err_codeExists env); [left; reflexivity|].
  destruct (negb (select_exists _ db)); [left; reflexivity|].
  destruct (err_IsCodeUsed env); [left; reflexivity|].
  destruct (select_exists (where_code_used_email _ _) db); [left; reflexivity|].
  destruct (err_isValidCode env); [left; reflexivity|].
  destruct (negb (select_exists _ db)); [left; reflexivity|].
  destruct (bcrypt_GenerateFromPassword env _) as [h|]; [|left; reflexivity].
  destruct (err_insert_user env); [left; reflexivity|].
  right. destruct (err_update env); [left | right]; exists h; reflexivity.
Qed.

(** *** A consumed code, under any email *)

Lemma all_used_refl_same_codes (c : string) (db db' : DB) :
  invitation_codes db' = invitation_codes db -> all_used c db -> all_used c db'.
Proof. intros E H row I. rewrite E in I. exact (H row I). Qed.

Lemma update_used_all_used (c c' : string) (db : DB) :
  all_used c db -> all_used c (update_used c' db).
Proof.
  intros H row I C. simpl in I. apply in_map_iff in I as (row0 & <- & I).
  unfold mark_used in *. destruct (String.eqb (inv_code row0) c'); [reflexivity|].
  exact (H row0 I C).
Qed.

Lemma RegisterHandler_all_used (c : string) (env : RegisterEnv) (r : Request) (db : DB) :
  all_used c db -> all_used c (RegisterHandler env r db).2.
Proof.
  intros H.
  destruct (RegisterHandler_tables_aux env r db) as [-> | [(h & ->) | (h & ->)]].
  - exact H.
  - exact (all_used_refl_same_codes c db _ eq_refl H).
  - apply update_used_all_used. exact (all_used_refl_same_codes c db _ eq_refl H).
Qed.

Lemma GenerateInvitationCodeHandler_all_used (c : string) (env : InviteEnv)
    (r : Request) (db : DB) :
  issued_code_of env <> Some c ->
  all_used c db -> all_used c (GenerateInvitationCodeHandler env r db).2.
Proof.
  intros N H. unfold issued_code_of in N.
  unfold GenerateInvitationCodeHandler, run, bind, reject_err, reply, ret, get, put.
  destruct (rand_Read env) as [codeBytes|err]; [|exact H].
  destruct (inv_exec_err env); simpl; [exact H|].
  intros row I C. simpl in I. apply in_app_or in I as [I | [<- | []]].
  - exact (H row I C).
  - simpl in C. congruence.
Qed.

Lemma apply_op_all_used
    (hmac : SigningMethod -> string -> SigningMethod * gmap string JSON -> string)
    (c : string) (op : Op) (st : gmap string Bucket * DB) :
  issued_code op <> Some c ->
  all_used c st.2 -> all_used c (apply_op hmac op st).2.
Proof.
  intros N H. destruct op; simpl in *; try exact H.
  - apply (AuthMiddleware_state hmac _ unix r st.2 (all_used c));
      [exact H | apply GenerateInvitationCodeHandler_all_used; assumption].
  - apply (AuthMiddleware_state hmac _ unix r st.2 (all_used c));
      [exact H | apply RegisterHandler_all_used; assumption].
  - unfold route_login.
    apply (RateLimitMiddleware_state _ nanos r st (all_used c)); [exact H|].
    apply (AuthMiddleware_state hmac _ unix r st.2 (all_used c)); [exact H|].
    exact (all_used_refl_same_codes c st.2 _ (LoginHandler_same_codes _ _ _) H).
Qed.

Lemma apply_ops_all_used
    (hmac : SigningMethod -> string -> SigningMethod * gmap string JSON -> string)
    (c : string) (ops : list Op) (st : gmap string Bucket * DB) :
  Forall (fun op => issued_code op <> Some c) ops ->
  all_used c st.2 -> all_used c (apply_ops hmac ops st).2.
Proof.
  revert st. induction ops as [|op ops IH]; intros st F H; simpl; [exact H|].
  inversion F as [|? ? N F']; subst.
  apply IH; [exact F'|]. apply apply_op_all_used; assumption.
Qed.

Lemma RegisterHandler_created_all_used (env : RegisterEnv) (r : Request) (db : DB) :
  status (RegisterHandler env r db).1 = StatusCreated ->
  all_used (Code (Body r)) (RegisterHandler env r db).2.
Proof.
  rewrite RegisterHandler_cases. cbv zeta.
  repeat match goal with
         | |- context [match ?x with _ => _ end] => destruct x; try discriminate
         end.
  intros _ row I C. simpl in I. apply in_map_iff in I as (row0 & <- & _).
  unfold mark_used in *. destruct (String.eqb (inv_code row0) (Code (Body r))) eqn:Q.
  - reflexivity.
  - apply String.eqb_neq in Q. contradiction.
Qed.

(** A registration with a code all of whose records are used is never
    accepted; it is AlreadyUsed when a record exists for its pair and
    NotFound when none does. *)
Lemma RegisterHandler_on_all_used (env : RegisterEnv) (r : Request) (db : DB) :
  all_used (Code (Body r)) db ->
  status (RegisterHandler env r db).1 <> StatusCreated
  /\ (Method r = "POST" -> err_codeExists env = None -> err_IsCodeUsed env = None ->
      (has_record (Code (Body r)) (Email (Body r)) db ->
       (RegisterHandler env r db).1 = Error "Used invitation code" StatusBadRequest)
      /\ (~ has_record (Code (Body r)) (Email (Body r)) db ->
          (RegisterHandler env r db).1
          = Error "Invalid invitation code" StatusBadRequest)).
Proof.
  intros AU.
  destruct (select_exists (where_code_email (Code (Body r)) (Email (Body r))) db) eqn:Q1.
  - apply select_code_email in Q1.
    assert (U : has_used_record (Code (Body r)) (Email (Body r)) db).
    { destruct Q1 as (row & I & H1 & H2). exists row. repeat split; auto. }
    destruct (RegisterHandler_on_used env r db U) as [N R].
    split; [exact N|]. intros M E1 E2. split; [intros _; auto | intros NR; contradiction].
  - assert (NR : ~ has_record (Code (Body r)) (Email (Body r)) db).
    { intros H. apply select_code_email in H. congruence. }
    rewrite RegisterHandler_cases. cbv zeta. rewrite Q1. simpl. split.
    + destruct (negb (String.eqb (Method r) "POST")); [discriminate|].
      destruct (err_codeExists env); discriminate.
    + intros -> -> _. simpl. split; [intros H; contradiction | reflexivity].
Qed.

(** C5, amended.  No operation of the server resets a used flag: every
    used record is still there, used, after any request to any route
    and any query of the sweeper.  Once a registration with (code,
    email) has been accepted, a later registration with the same code
    and the same email is never accepted and is answered "Used
    invitation code" (AlreadyUsed), whatever happened in between.  And
    as long as that code is not issued again in between, a later
    registration with the same code is never accepted under any email:
    it is answered "Used invitation code" when a record exists for its
    (code, email) pair and "Invalid invitation code" (NotFound, which
    is checked first) when none does. *)
Theorem used_is_permanent :
  forall (hmac : SigningMethod -> string -> SigningMethod * gmap string JSON -> string),
    (forall (op : Op) (st : gmap string Bucket * DB) (row : InvitationRow),
       In row (invitation_codes st.2) -> inv_used row = true ->
       In row (invitation_codes (apply_op hmac op st).2) /\ inv_used row = true)
    /\ (forall (env : RegisterEnv) (r : Request) (db : DB)
               (limiters : gmap string Bucket) (ops : list Op)
               (env' : RegisterEnv) (r' : Request),
          status (RegisterHandler env r db).1 = StatusCreated ->
          Code (Body r') = Code (Body r) ->
          let later := (apply_ops hmac ops (limiters, (RegisterHandler env r db).2)).2 in
          (Email (Body r') = Email (Body r) ->
           status (RegisterHandler env' r' later).1 <> StatusCreated
           /\ (Method r' = "POST" -> err_codeExists env' = None ->
               err_IsCodeUsed env' = None ->
               (RegisterHandler env' r' later).1
               = Error "Used invitation code" StatusBadRequest))
          /\ (Forall (fun op => issued_code op <> Some (Code (Body r))) ops ->
              status (RegisterHandler env' r' later).1 <> StatusCreated
              /\ (Method r' = "POST" -> err_codeExists env' = None ->
                  err_IsCodeUsed env' = None ->
                  (has_record (Code (Body r')) (Email (Body r')) later ->
                   (RegisterHandler env' r' later).1
                   = Error "Used invitation code" StatusBadRequest)
                  /\ (~ has_record (Code (Body r')) (Email (Body r')) later ->
                      (RegisterHandler env' r' later).1
                      = Error "Invalid invitation code" StatusBadRequest)))).
Proof.
  intros hmac. split.
  - intros op st row I U. split; [|exact U].
    apply (apply_op_used_kept hmac op st row I U).
  - intros env r db limiters ops env' r' OK C later. split.
    + intros E. apply RegisterHandler_on_used. rewrite C, E. subst later.
      eapply has_used_record_kept.
      * apply (apply_ops_used_kept hmac ops (limiters, (RegisterHandler env r db).2)).
      * simpl. apply (registration_and_mark_used_aux env r db OK).
    + intros F. apply RegisterHandler_on_all_used. rewrite C. subst later.
      apply (apply_ops_all_used hmac _ ops (limiters, (RegisterHandler env r db).2) F).
      simpl. apply (RegisterHandler_created_all_used env r db OK).
Qed.

Lemma used_is_permanent_witness :
  (In (mkInvitation 1 "abc123" "a@x.com" true (Some (seconds 1000)))
      (invitation_codes
         (apply_op sample_hmac
            (PostRegister 1700000000 (calm (seconds 36)) (bearer_request sample_token))
            (∅, one_code true)).2)
   /\ inv_used (mkInvitation 1 "abc123" "a@x.com" true (Some (seconds 1000))) = true)
  /\ (RegisterHandler (calm (seconds 40)) (register_request alice)
        (apply_ops sample_hmac sample_ops
           (∅, (RegisterHandler (calm (seconds 30)) (register_request alice)
                  (one_code false)).2)).2).1
     = Error "Used invitation code" StatusBadRequest
  /\ status
       (RegisterHandler (calm (seconds 40))
          (register_request (mkUser "b@y.com" "secret" "abc123"))
          (apply_ops sample_hmac sample_ops
             (∅, (RegisterHandler (calm (seconds 30)) (register_request alice)
                    (one_code false)).2)).2).1
     <> StatusCreated.
Proof.
  split; [|split].
  - apply (proj1 (used_is_permanent sample_hmac)
             (PostRegister 1700000000 (calm (seconds 36)) (bearer_request sample_token))
             (∅, one_code true)).
    + simpl. left. reflexivity.
    + reflexivity.
  - apply (proj1 (proj2 (used_is_permanent sample_hmac)
                    (calm (seconds 30)) (register_request alice) (one_code false)
                    ∅ sample_ops (calm (seconds 40)) (register_request alice)
                    eq_refl eq_refl) eq_refl);
      reflexivity.
  - apply (proj2 (proj2 (used_is_permanent sample_hmac)
                    (calm (seconds 30)) (register_request alice) (one_code false)
                    ∅ sample_ops (calm (seconds 40))
                    (register_request (mkUser "b@y.com" "secret" "abc123"))
                    eq_refl eq_refl)).
    unfold sample_ops. repeat constructor; simpl; discriminate.
Defined.

(** ** Login *)

(** C8 as stated fails.  Against the same table, a wrong password for
    a@x.com and a login for an account that does not exist get
    different status codes and different texts. *)
Lemma login_failures_counterexample :
  let wrong_password :=
    (LoginHandler sample_login_env (login_request (mkUser "a@x.com" "guess" ""))
       one_user).1 in
  let unknown_account :=
    (LoginHandler sample_login_env (login_request (mkUser "nobody@x.com" "guess" ""))
       one_user).1 in
  wrong_password = Error "Invalid credential!" StatusMethodNotAllowed
  /\ unknown_account = Error "User not found" StatusUnauthorized
  /\ ~ (status wrong_password = StatusUnauthorized /\ wrong_password = unknown_account).
Proof.
  cbv zeta. split; [vm_compute; reflexivity | split; [vm_compute; reflexivity|]].
  intros [H _]. vm_compute in H. discriminate.
Qed.

(** C8, amended.  For a POST login that carries a bearer token and
    whose first SELECT does not fail: an unknown account is answered
    401 with the text "User not found"; a wrong password is answered
    with the text "Invalid credential!"; in both cases the tables are
    left as they were (no session), and the two answers differ. *)
Theorem login_failures :
  forall (env : LoginEnv) (r : Request) (db : DB),
    isEmpty (ExtractTokenFromHeader r) = false ->
    Method r = "POST" ->
    err_select_hash env = None ->
    (select_user (Email (Body r)) db = None ->
       LoginHandler env r db = (Error "User not found" StatusUnauthorized, db))
    /\ (forall row : UserRow,
          select_user (Email (Body r)) db = Some row ->
          bcrypt_matches env (usr_password_hash row) (Password (Body r)) = false ->
          body (LoginHandler env r db).1 = Text "Invalid credential!"
          /\ (LoginHandler env r db).2 = db
          /\ body (LoginHandler env r db).1
             <> body (Error (A := unit) "User not found" StatusUnauthorized)).
Proof.
  intros env r db T M E. rewrite LoginHandler_cases. cbv zeta.
  rewrite T, M, E. simpl. split.
  - intros ->. reflexivity.
  - intros row -> ->. simpl. repeat split. discriminate.
Qed.

Lemma login_failures_witness :
  LoginHandler sample_login_env (login_request (mkUser "nobody@x.com" "guess" "")) one_user
  = (Error "User not found" StatusUnauthorized, one_user)
  /\ body (LoginHandler sample_login_env (login_request (mkUser "a@x.com" "guess" ""))
             one_user).1 = Text "Invalid credential!".
Proof.
  split.
  - apply (proj1 (login_failures sample_login_env
                    (login_request (mkUser "nobody@x.com" "guess" "")) one_user
                    eq_refl eq_refl eq_refl)).
    reflexivity.
  - apply (proj2 (login_failures sample_login_env
                    (login_request (mkUser "a@x.com" "guess" "")) one_user
                    eq_refl eq_refl eq_refl)
             (mkUserRow 7 "a@x.com" "$2a$10$secret")).
    + reflexivity.
    + reflexivity.
Defined.

(** ** Rate limiter *)

(** A new bucket is full. *)
Lemma NewBucketWithRate_1_1_full (now : Z) :
  availableTokens (NewBucketWithRate_1_1 now) = capacity (NewBucketWithRate_1_1 now)
  /\ capacity (NewBucketWithRate_1_1 now) = 1.
Proof. split; reflexivity. Qed.

(** The first take from a new bucket, in the instant of its creation. *)
Lemma TakeAvailable_new (t0 : Z) :
  TakeAvailable (NewBucketWithRate_1_1 t0) t0 1 = (1, mkBucket t0 1 1 Second 0 0).
Proof.
  unfold TakeAvailable, adjustavailableTokens, currentTick, NewBucketWithRate_1_1,
    NewBucketWithQuantum. cbn [startTime fillInterval capacity quantum availableTokens
                               latestTick].
  rewrite !Z.sub_diag. reflexivity.
Qed.

(** A take from the emptied bucket within the tick of the last take. *)
Lemma TakeAvailable_empty_same_tick (t0 t k : Z) :
  Z.quot (t - t0) Second = k ->
  TakeAvailable (mkBucket t0 1 1 Second 0 k) t 1 = (0, mkBucket t0 1 1 Second 0 k).
Proof.
  intros E. unfold TakeAvailable, adjustavailableTokens, currentTick.
  cbn [startTime fillInterval capacity quantum availableTokens latestTick].
  rewrite !E, !Z.sub_diag. reflexivity.
Qed.

(** A take from the emptied bucket a second or more after its creation. *)
Lemma TakeAvailable_refilled (t0 t1 : Z) :
  t0 + Second <= t1 ->
  TakeAvailable (mkBucket t0 1 1 Second 0 0) t1 1
  = (1, mkBucket t0 1 1 Second 0 (Z.quot (t1 - t0) Second)).
Proof.
  intros L. unfold TakeAvailable, adjustavailableTokens, currentTick.
  cbn [startTime fillInterval capacity quantum availableTokens latestTick].
  assert (K : 1 <= Z.quot (t1 - t0) Second).
  { apply Z.quot_le_lower_bound; unfold Second in *; lia. }
  set (k := Z.quot (t1 - t0) Second) in *.
  replace (0 + (k - 0) * 1) with k by lia.
  destruct (1 <? k) eqn:C; simpl; [reflexivity|].
  apply Z.ltb_ge in C. assert (k = 1) as -> by lia. reflexivity.
Qed.

(** The middleware on a client it has not seen, and on one it has. *)
Lemma RateLimitMiddleware_cases {S A : Type} (next : Request -> S -> Response A * S)
    (now : Z) (r : Request) (m : gmap string Bucket) (s : S) :
  RateLimitMiddleware next now r (m, s) =
    let limiter := default (NewBucketWithRate_1_1 now) (m !! RemoteAddr r) in
    let m' := <[RemoteAddr r := (TakeAvailable limiter now 1).2]> m in
    if (TakeAvailable limiter now 1).1 =? 0 then
      (Error "Rate limit exceeded" StatusTooManyRequests, (m', s))
    else ((next r s).1, (m', (next r s).2)).
Proof.
  unfold RateLimitMiddleware. cbv zeta.
  destruct (m !! RemoteAddr r) as [b|]; cbn [from_option id].
  - generalize (TakeAvailable b now 1). intros [taken tb]. simpl.
    destruct (taken =? 0); [reflexivity|]. destruct (next r s); reflexivity.
  - generalize (TakeAvailable (NewBucketWithRate_1_1 now) now 1).
    intros [taken tb]. simpl. rewrite insert_insert_eq.
    destruct (taken =? 0); [reflexivity|]. destruct (next r s); reflexivity.
Qed.

Section LimiterSteps.

Context {S A : Type}.
Variable next : Request -> S -> Response A * S.

(** first sight of a client: a bucket is made, and the request passes *)
Lemma RateLimitMiddleware_first_sight (t0 : Z) (r : Request) (m : gmap string Bucket)
    (s : S) :
  m !! RemoteAddr r = None ->
  RateLimitMiddleware next t0 r (m, s)
  = ((next r s).1, (<[RemoteAddr r := mkBucket t0 1 1 Second 0 0]> m, (next r s).2)).
Proof.
  intros N. rewrite RateLimitMiddleware_cases. cbv zeta.
  rewrite N. cbn [from_option id]. rewrite TakeAvailable_new. reflexivity.
Qed.

(** the emptied bucket, within the tick of the last take: 429 *)
Lemma RateLimitMiddleware_throttled (t0 t k : Z) (r : Request) (m : gmap string Bucket)
    (s : S) :
  m !! RemoteAddr r = Some (mkBucket t0 1 1 Second 0 k) ->
  Z.quot (t - t0) Second = k ->
  RateLimitMiddleware next t r (m, s)
  = (Error "Rate limit exceeded" StatusTooManyRequests,
     (<[RemoteAddr r := mkBucket t0 1 1 Second 0 k]> m, s)).
Proof.
  intros N K. rewrite RateLimitMiddleware_cases. cbv zeta.
  rewrite N. cbn [from_option id].
  rewrite (TakeAvailable_empty_same_tick t0 t k K). reflexivity.
Qed.

(** the emptied bucket, a second or more after its creation: passes *)
Lemma RateLimitMiddleware_refilled (t0 t1 : Z) (r : Request) (m : gmap string Bucket)
    (s : S) :
  m !! RemoteAddr r = Some (mkBucket t0 1 1 Second 0 0) ->
  t0 + Second <= t1 ->
  RateLimitMiddleware next t1 r (m, s)
  = ((next r s).1,
     (<[RemoteAddr r := mkBucket t0 1 1 Second 0 (Z.quot (t1 - t0) Second)]> m,
      (next r s).2)).
Proof.
  intros N L. rewrite RateLimitMiddleware_cases. cbv zeta.
  rewrite N. cbn [from_option id].
  rewrite (TakeAvailable_refilled t0 t1 L). reflexivity.
Qed.

End LimiterSteps.

(** C9.  For a client address the limiter map has no bucket for: the
    first request, at [t0], creates a bucket of capacity 1, full, and
    is passed to the wrapped handler; a second request in the same
    instant, or at any instant less than one second after [t0], is
    answered 429 without reaching the handler; a third request one
    second or more after the first is passed to the handler; and a
    fourth in the instant of the third, or later within the same
    one-second tick counted from [t0], is answered 429.  The refill is
    one token per full second: nothing comes back sooner. *)
Theorem rate_limiter_scenario :
  forall (S A : Type) (next : Request -> S -> Response A * S) (r : Request)
         (limiters : gmap string Bucket) (s : S) (t0 t t1 t1' : Z),
    limiters !! RemoteAddr r = None ->
    t0 <= t < t0 + Second ->
    t0 + Second <= t1 ->
    t1 <= t1' ->
    Z.quot (t1' - t0) Second = Z.quot (t1 - t0) Second ->
    let first := RateLimitMiddleware next t0 r (limiters, s) in
    let second := RateLimitMiddleware next t r first.2 in
    let third := RateLimitMiddleware next t1 r second.2 in
    let fourth := RateLimitMiddleware next t1' r third.2 in
    (* the bucket is created on first sight, full *)
    (availableTokens (NewBucketWithRate_1_1 t0) = 1
     /\ capacity (NewBucketWithRate_1_1 t0) = 1
     /\ first.2.1 = <[RemoteAddr r := (TakeAvailable (NewBucketWithRate_1_1 t0) t0 1).2]>
                      limiters)
    (* first: admitted *)
    /\ (first.1 = (next r s).1 /\ first.2.2 = (next r s).2)
    (* second, less than a second after the first: throttled *)
    /\ (second.1 = Error "Rate limit exceeded" StatusTooManyRequests
        /\ second.2.2 = first.2.2)
    (* third, a second or more after the first: admitted *)
    /\ (third.1 = (next r second.2.2).1 /\ third.2.2 = (next r second.2.2).2)
    (* fourth, in the tick of the third: throttled *)
    /\ (fourth.1 = Error "Rate limit exceeded" StatusTooManyRequests
        /\ fourth.2.2 = third.2.2).
Proof.
  intros S A next r limiters s t0 t t1 t1' N T L L' K. cbv zeta.
  rewrite (RateLimitMiddleware_first_sight next t0 r limiters s N).
  cbn [fst snd].
  assert (K0 : Z.quot (t - t0) Second = 0)
    by (apply Z.quot_small; unfold Second in *; lia).
  rewrite (RateLimitMiddleware_throttled next t0 t 0 r _ (next r s).2)
    by (rewrite ?lookup_insert_eq; auto).
  cbn [fst snd]. rewrite insert_insert_eq.
  rewrite (RateLimitMiddleware_refilled next t0 t1 r _ (next r s).2)
    by (rewrite ?lookup_insert_eq; auto).
  cbn [fst snd]. rewrite insert_insert_eq.
  rewrite (RateLimitMiddleware_throttled next t0 t1' (Z.quot (t1 - t0) Second) r _ _)
    by (rewrite ?lookup_insert_eq; auto).
  cbn [fst snd]. rewrite TakeAvailable_new.
  repeat split.
Qed.

Lemma rate_limiter_scenario_witness :
  let r := bearer_request sample_token in
  let first := RateLimitMiddleware sample_next (5 * Second) r (∅, 0%nat) in
  let second := RateLimitMiddleware sample_next (5 * Second + 999999999) r first.2 in
  let third := RateLimitMiddleware sample_next (6 * Second) r second.2 in
  let fourth := RateLimitMiddleware sample_next (6 * Second + 999999999) r third.2 in
  first.1 = (sample_next r 0%nat).1
  /\ second.1 = Error "Rate limit exceeded" StatusTooManyRequests
  /\ third.1 = (sample_next r second.2.2).1
  /\ fourth.1 = Error "Rate limit exceeded" StatusTooManyRequests.
Proof.
  cbv zeta.
  assert (N : (∅ : gmap string Bucket) !! RemoteAddr (bearer_request sample_token) = None)
    by reflexivity.
  assert (T : 5 * Second <= 5 * Second + 999999999 < 5 * Second + Second)
    by (unfold Second; lia).
  assert (L : 5 * Second + Second <= 6 * Second) by (unfold Second; lia).
  assert (L' : 6 * Second <= 6 * Second + 999999999) by (unfold Second; lia).
  assert (K : Z.quot (6 * Second + 999999999 - 5 * Second) Second
              = Z.quot (6 * Second - 5 * Second) Second) by reflexivity.
  destruct (rate_limiter_scenario nat unit sample_next (bearer_request sample_token)
              ∅ 0%nat (5 * Second) (5 * Second + 999999999) (6 * Second)
              (6 * Second + 999999999) N T L L' K)
    as (_ & [H1 _] & [H2 _] & [H3 _] & [H4 _]).
  repeat split; assumption.
Defined.

(** ** Sweeper *)

Section SweeperFacts.

Variable notify : Invitation -> list Event * option string.

(** The range loop hands every invitation to the notifier, whether or
    not an earlier one failed. *)
Lemma resend_all_app (l1 l2 : list Invitation) :
  resend_all notify (l1 ++ l2) = (resend_all notify l1 ++ resend_all notify l2)%list.
Proof.
  induction l1 as [|inv l1 IH]; simpl; [reflexivity|].
  destruct (notify inv) as [out err]. rewrite IH, <- !app_assoc. reflexivity.
Qed.

Lemma resend_all_reaches_each (l : list Invitation) (inv : Invitation) (e : Event) :
  In inv l -> In e (notify inv).1 -> In e (resend_all notify l).
Proof.
  induction l as [|inv' l IH]; simpl; [tauto|].
  intros [-> | I] E; destruct (notify _) as [out err] eqn:N in |- *.
  - rewrite N in E. apply in_or_app. left. exact E.
  - apply in_or_app. right. apply in_or_app. right. apply IH; assumption.
Qed.

(** A failed notification is printed. *)
Lemma resend_all_logs_failure (l : list Invitation) (inv : Invitation) (msg : string) :
  In inv l -> (notify inv).2 = Some msg ->
  In (Printed ("Error resending invitation: " +:+ msg)) (resend_all notify l).
Proof.
  induction l as [|inv' l IH]; simpl; [tauto|].
  intros [-> | I] E; destruct (notify _) as [out err] eqn:N in |- *.
  - rewrite N in E. simpl in E. subst err.
    apply in_or_app. right. simpl. left. reflexivity.
  - apply in_or_app. right. apply in_or_app. right. apply IH; assumption.
Qed.

(** When the query succeeds the pass ends with the sleep. *)
Lemma sweep_once_success (s : Snapshot) (invs : list Invitation) :
  GetExpiredInvitations s = inl invs ->
  sweep_once notify s = (Queried :: resend_all notify invs ++ [Slept (2 * 3600)])%list.
Proof. intros E. unfold sweep_once. rewrite E. reflexivity. Qed.

(** When the query fails the pass is the query and the printed error:
    one query, no notification, and no sleep. *)
Lemma sweep_once_failure (s : Snapshot) (err : string) :
  snap_err s = Some err ->
  sweep_once notify s
  = [Queried; Printed ("Error querying expired invitations: " +:+ err)].
Proof.
  intros E. unfold sweep_once, GetExpiredInvitations. rewrite E. reflexivity.
Qed.

(** Each pass begins with a query. *)
Lemma sweep_once_queries (s : Snapshot) :
  exists rest, sweep_once notify s = Queried :: rest.
Proof.
  unfold sweep_once. destruct (GetExpiredInvitations s); eauto.
Qed.

End SweeperFacts.

(** C7, the part the code breaks.  When a query of the sweeper fails,
    the next thing the loop does after printing the error is the next
    query: nothing is slept in between, where the claim has the loop
    sleep the fixed interval before it queries again. *)
Theorem failed_query_is_retried_at_once :
  forall (notify : Invitation -> list Event * option string)
         (s s' : Snapshot) (later : list Snapshot) (err : string),
    snap_err s = Some err ->
    exists rest,
      ProcessResendCodesWith notify (s :: s' :: later)
      = ([Queried; Printed ("Error querying expired invitations: " +:+ err)]
         ++ Queried :: rest)%list.
Proof.
  intros notify s s' later err E.
  destruct (sweep_once_queries notify s') as [rest R].
  exists (rest ++ ProcessResendCodesWith notify later)%list.
  simpl. rewrite (sweep_once_failure notify s err E), R. reflexivity.
Qed.

Lemma failed_query_is_retried_at_once_witness :
  exists rest,
    ProcessResendCodes [store_down; store_up]
    = ([Queried; Printed "Error querying expired invitations: EOF"]
       ++ Queried :: rest)%list.
Proof.
  apply (failed_query_is_retried_at_once ResendInvitation store_down store_up []
           "EOF").
  reflexivity.
Defined.

(** ** [main] *)

(** Had the loop been started, it would query the store. *)
Lemma ProcessResendCodes_queries (s : Snapshot) (later : list Snapshot) :
  In Queried (ProcessResendCodes (s :: later)).
Proof.
  unfold ProcessResendCodes. simpl.
  destruct (sweep_once_queries ResendInvitation s) as [rest ->]. left. reflexivity.
Qed.

(** [main] stops in [ListenAndServe] or in a [log.Fatal]. *)
Lemma main_halts (env : MainEnv) :
  (main env).2 = inr Blocked \/ (main env).2 = inr (Exited 1).
Proof.
  unfold main, SetupDatabase, ListenAndServe.
  destruct (sql_Open_err env); [right; reflexivity|].
  destruct (db_Ping_err env); [right; reflexivity|].
  destruct (ListenAndServe_err env); [right | left]; reflexivity.
Qed.

(** C6, which the code breaks.  In no run of [main] is there an event
    of the sweeper: [ProcessResendCodes] comes after
    [log.Fatal(http.ListenAndServe(...))], which either serves for the
    life of the process or exits it. *)
Theorem main_never_reaches_sweeper :
  forall (env : MainEnv) (e : Event), ~ In (Sweep e) (main env).1.
Proof.
  intros env e. unfold main, SetupDatabase, ListenAndServe.
  destruct (sql_Open_err env); [simpl; intuition discriminate|].
  destruct (db_Ping_err env); [simpl; intuition discriminate|].
  destruct (ListenAndServe_err env); simpl; intuition discriminate.
Qed.

(** ** The scenarios of the specification, run on the model *)

(** A header with another scheme yields no token, and the middleware
    answers 401. *)
Example wrong_scheme_is_unauthorized :
  AuthMiddleware sample_hmac sample_next 1700000000
    (mkRequest "POST" [Plain "Token"; Plain "xyz"] ∅ ∅ no_user "1.2.3.4:5") 0%nat
  = (Error "Authorization header not found" StatusUnauthorized, 0%nat).
Proof. reflexivity. Qed.

(** A fresh token is forwarded. *)
Example fresh_token_is_forwarded :
  AuthMiddleware sample_hmac sample_next 1700000000 (bearer_request sample_token) 0%nat
  = (mkResponse StatusOK (Text "ok"), 1%nat).
Proof. vm_compute. reflexivity. Qed.

(** A token signed under another key is turned away. *)
Example forged_token_is_unauthorized :
  AuthMiddleware sample_hmac sample_next 1700000000
    (bearer_request
       (Compact (mkJws HS256
                   (<["email" := JString "a@x.com"]>
                      (<["expiry" := JNumber 1700007200]> ∅))
                   "mac(k,a@x.com,A)"))) 0%nat
  = (Error "Invalid token" StatusUnauthorized, 0%nat).
Proof. vm_compute. reflexivity. Qed.

(** "abc123" is consumed 30 seconds in, and refused 40 seconds in. *)
Example consume_then_already_used :
  let first := RegisterHandler (calm (seconds 30)) (register_request alice)
                 (one_code false) in
  first.1 = mkResponse StatusCreated (Json alice)
  /\ (RegisterHandler (calm (seconds 40)) (register_request alice) first.2).1
     = Error "Used invitation code" StatusBadRequest.
Proof. split; reflexivity. Qed.

(** A code is refused as expired from two minutes after [expires_at]. *)
Example consume_expired :
  (RegisterHandler (calm (seconds 1120)) (register_request alice) (one_code false)).1
  = Error "Expired invitation code" StatusBadRequest
  /\ (RegisterHandler (calm (seconds 1119)) (register_request alice) (one_code false)).1
     = mkResponse StatusCreated (Json alice).
Proof. split; reflexivity. Qed.

(** The sweeper finds the code once it is more than two minutes past
    [expires_at], and a notification that fails does not stop the next. *)
Example sweep_finds_expired :
  GetExpiredInvitations store_up = inl [mkInv 1 "a@x.com"].
Proof. reflexivity. Qed.

Example notification_failure_does_not_abort :
  resend_all flaky_notify [mkInv 1 "a@x.com"; mkInv 2 "b@y.com"]
  = [Printed "Resending invitation to a@x.com";
     Printed "Error resending invitation: smtp: timeout";
     Printed "Resending invitation to b@y.com"].
Proof. reflexivity. Qed.

(** Sixteen bytes make a code of 24 characters. *)
Example invitation_code_of_bytes :
  base64.EncodeToString [1; 2; 3; 4; 5; 6; 7; 8; 9; 10; 11; 12; 13; 14; 15; 16]
  = "AQIDBAUGBwgJCgsMDQ4PEA==".
Proof. reflexivity. Qed.

(** * Further properties of the code *)

(** ** Token service *)

Section TokenServiceMore.

Variable hmac : SigningMethod -> string -> SigningMethod * gmap string JSON -> string.
Context {S A : Type}.
Variable next : Request -> S -> Response A * S.

(** The entries the middleware seeds are not registered claims: the
    registered-claim checks see the payload only. *)
Lemma Valid_seeded (p : gmap string GoValue) (r : Request) (now : Z) :
  Valid (p ∪ seeded r now) now = Valid p now.
Proof.
  unfold Valid, VerifyClaim, seeded.
  rewrite !lookup_union, !lookup_insert_ne, !lookup_empty by discriminate.
  destruct (p !! "exp"), (p !! "iat"), (p !! "nbf"); reflexivity.
Qed.

Lemma ExtractTokenFromHeader_same_header (r r' : Request) :
  Authorization r = Authorization r' ->
  ExtractTokenFromHeader r = ExtractTokenFromHeader r'.
Proof. intros E. unfold ExtractTokenFromHeader. rewrite E. reflexivity. Qed.

Lemma ExtractTokenFromHeader_scheme (r : Request) (scheme : string) (tok : TokenString) :
  Authorization r = [Plain scheme; tok] ->
  ToLower scheme = "bearer" ->
  ExtractTokenFromHeader r = tok.
Proof.
  intros E L. unfold ExtractTokenFromHeader. rewrite E.
  destruct scheme; [discriminate|]. rewrite L. reflexivity.
Qed.

End TokenServiceMore.

(** X1.  [AuthMiddleware] fails closed.  It forwards a request exactly
    when the header carries a well-formed token whose registered
    claims hold at the clock, whose signature is the HMAC of its
    content under [jwtKey], and whose "expiry" is a number other than
    0; such a request goes to the wrapped handler unchanged.  Every
    other request is answered 401 with one of the three messages, and
    the state is left as it was. *)
Theorem AuthMiddleware_fails_closed :
  forall (hmac : SigningMethod -> string -> SigningMethod * gmap string JSON -> string)
         (S A : Type) (next : Request -> S -> Response A * S)
         (now : Z) (r : Request) (s : S),
    (admissible hmac now r -> AuthMiddleware hmac next now r s = next r s)
    /\ (~ admissible hmac now r ->
        exists msg,
          AuthMiddleware hmac next now r s = (Error msg StatusUnauthorized, s)
          /\ (msg = "Authorization header not found" \/ msg = "Invalid token"
              \/ msg = "Expired token")).
Proof.
  intros hmac S A next now r s. rewrite AuthMiddleware_cases. unfold admissible. split.
  - intros (t & n & -> & V & G & E & NZ). cbv zeta.
    rewrite Valid_seeded, V, G, E. simpl.
    apply Z.eqb_neq in NZ. rewrite NZ. reflexivity.
  - intros NA. destruct (ExtractTokenFromHeader r) as [tok|t]; simpl.
    + destruct (String.eqb tok ""); eauto 6.
    + rewrite Valid_seeded.
      destruct (Valid _ now) eqn:V; simpl; [|eauto 6].
      destruct (Verify hmac _ _ _ _) eqn:G; [|eauto 6].
      destruct (payload t !! "expiry") as [[n| | | |]|] eqn:E; eauto 6.
      destruct (n =? 0) eqn:NZ; [eauto 6|].
      apply Z.eqb_neq in NZ. contradiction NA. exists t, n. auto.
Qed.

Lemma AuthMiddleware_fails_closed_witness :
  AuthMiddleware sample_hmac sample_next 1700000000 (bearer_request sample_token) 0%nat
  = sample_next (bearer_request sample_token) 0%nat
  /\ exists msg,
       AuthMiddleware sample_hmac sample_next 1700000000
         (bearer_request
            (Compact (mkJws HS256
                        (<["email" := JString "a@x.com"]>
                           (<["expiry" := JNumber 1700007200]> ∅))
                        "forged"))) 0%nat
       = (Error msg StatusUnauthorized, 0%nat)
       /\ (msg = "Authorization header not found" \/ msg = "Invalid token"
           \/ msg = "Expired token").
Proof.
  split.
  - apply (proj1 (AuthMiddleware_fails_closed sample_hmac nat unit sample_next
                    1700000000 (bearer_request sample_token) 0%nat)).
    unfold admissible, sample_token. rewrite GenerateJWTToken_eq. cbv zeta.
    eexists. exists 1700007200. split; [reflexivity|].
    split; [vm_compute; reflexivity|]. split; [vm_compute; reflexivity|].
    split; [vm_compute; reflexivity | discriminate].
  - apply (proj2 (AuthMiddleware_fails_closed sample_hmac nat unit sample_next
                    1700000000 _ 0%nat)).
    intros (t & n & E & _ & G & _). injection E as <-.
    vm_compute in G. discriminate G.
Defined.

(** X2.  The decision of [AuthMiddleware] depends on the Authorization
    header alone: two requests with the same header are both turned
    away with the same message or both forwarded, whatever email the
    form claims, whatever the method, the body and the address.  The
    token is not tied to the email of the request. *)
Theorem AuthMiddleware_decides_on_header :
  forall (hmac : SigningMethod -> string -> SigningMethod * gmap string JSON -> string)
         (S A : Type) (next : Request -> S -> Response A * S)
         (now : Z) (r r' : Request) (s : S),
    Authorization r = Authorization r' ->
    (AuthMiddleware hmac next now r s = next r s
     /\ AuthMiddleware hmac next now r' s = next r' s)
    \/ (exists msg,
          AuthMiddleware hmac next now r s = (Error msg StatusUnauthorized, s)
          /\ AuthMiddleware hmac next now r' s = (Error msg StatusUnauthorized, s)).
Proof.
  intros hmac S A next now r r' s E.
  rewrite !AuthMiddleware_cases, (ExtractTokenFromHeader_same_header r r' E).
  destruct (ExtractTokenFromHeader r') as [tok|t]; simpl.
  - destruct (String.eqb tok ""); right; eauto.
  - rewrite !Valid_seeded.
    destruct (Valid _ now && Verify hmac _ _ _ _); [|right; eauto].
    destruct (payload t !! "expiry") as [[n| | | |]|]; try (right; eauto; fail).
    destruct (n =? 0); [right; eauto | left; split; reflexivity].
Qed.

Lemma AuthMiddleware_decides_on_header_witness :
  AuthMiddleware sample_hmac sample_next 1700000000
    (mkRequest "GET" [Plain "Bearer"; sample_token] {["email" := ["eve@z.org"]]} ∅
       (mkUser "eve@z.org" "" "") "6.7.8.9:10") 0%nat
  = (mkResponse StatusOK (Text "ok"), 1%nat).
Proof.
  destruct (AuthMiddleware_decides_on_header sample_hmac nat unit sample_next 1700000000
              (bearer_request sample_token)
              (mkRequest "GET" [Plain "Bearer"; sample_token]
                 {["email" := ["eve@z.org"]]} ∅ (mkUser "eve@z.org" "" "") "6.7.8.9:10")
              0%nat eq_refl) as [[_ H] | (msg & H & _)].
  - exact H.
  - vm_compute in H. discriminate H.
Defined.

(** X3.  Issue and validate compose: the token in a 200 answer of
    [GenerateTokenHandler], presented under a scheme that lowercases to
    "bearer", is forwarded by [AuthMiddleware]. *)
Theorem issued_token_is_accepted :
  forall (hmac : SigningMethod -> string -> SigningMethod * gmap string JSON -> string)
         (S A : Type) (next : Request -> S -> Response A * S)
         (issued now : Z) (r r' : Request) (s : S) (t : Token) (scheme : string),
    0 <= issued ->
    body (GenerateTokenHandler hmac issued r) = Json t ->
    Authorization r' = [Plain scheme; Token_ t] ->
    ToLower scheme = "bearer" ->
    AuthMiddleware hmac next now r' s = next r' s.
Proof.
  intros hmac S A next issued now r r' s t scheme I B H L.
  unfold GenerateTokenHandler in B.
  destruct (String.eqb (PostFormValue r "Email") ""); [discriminate|].
  rewrite GenerateJWTToken_eq in B. simpl in B. injection B as <-. simpl in H.
  rewrite AuthMiddleware_cases, (ExtractTokenFromHeader_scheme _ _ _ H L). simpl.
  rewrite String.eqb_refl, andb_true_r, Valid_seeded.
  assert (V : Valid
     (unmarshal <$> (<["email":=JString (utf8.coerce (PostFormValue r "Email"))]>
                       (<["expiry":=JNumber (twoHoursFrom issued)]> ∅))) now = true).
  { unfold Valid, VerifyClaim. rewrite !lookup_fmap, !lookup_insert. reflexivity. }
  rewrite V, lookup_insert_ne by discriminate. rewrite lookup_insert_eq.
  destruct (twoHoursFrom issued =? 0) eqn:Z0; [|reflexivity].
  apply Z.eqb_eq in Z0. unfold twoHoursFrom in Z0. lia.
Qed.

Lemma issued_token_is_accepted_witness :
  AuthMiddleware sample_hmac sample_next 1700000005
    (mkRequest "POST" [Plain "BEARER"; sample_token] ∅ ∅ no_user "1.2.3.4:5") 0%nat
  = (mkResponse StatusOK (Text "ok"), 1%nat).
Proof.
  apply (issued_token_is_accepted sample_hmac nat unit sample_next 1700000000 1700000005
           (token_request {["Email" := ["a@x.com"]]})
           (mkRequest "POST" [Plain "BEARER"; sample_token] ∅ ∅ no_user "1.2.3.4:5")
           0%nat (mkToken sample_token (twoHoursFrom 1700000000)) "BEARER").
  - lia.
  - vm_compute. reflexivity.
  - reflexivity.
  - reflexivity.
Defined.

(** X4.  [ExtractTokenFromHeader] yields a non-empty token exactly for a
    header of two fields whose first lowercases to "bearer"; the token
    is then the second field.  Any other header yields "". *)
Theorem ExtractTokenFromHeader_nonempty_iff :
  forall (r : Request) (tok : TokenString),
    isEmpty tok = false ->
    (ExtractTokenFromHeader r = tok
     <-> exists scheme, Authorization r = [Plain scheme; tok]
                        /\ ToLower scheme = "bearer").
Proof.
  intros r tok NE. split.
  - unfold ExtractTokenFromHeader.
    destruct (Authorization r) as [|f1 [|f2 [|f3 rest]]];
      try (intros <-; discriminate NE).
    + destruct f1 as [[|c s1]|]; intros <-; discriminate NE.
    + destruct f1 as [[|c s1]|]; try (intros <-; discriminate NE).
      destruct (String.eqb (ToLower (String c s1)) "bearer") eqn:Q;
        [|intros <-; discriminate NE].
      intros <-. apply String.eqb_eq in Q. eauto.
    + destruct f1 as [[|c s1]|]; intros <-; discriminate NE.
  - intros (scheme & E & L). exact (ExtractTokenFromHeader_scheme r scheme tok E L).
Qed.

Lemma ExtractTokenFromHeader_nonempty_iff_witness :
  ExtractTokenFromHeader
    (mkRequest "POST" [Plain "bEaReR"; Plain "xyz"] ∅ ∅ no_user "1.2.3.4:5")
  = Plain "xyz".
Proof.
  apply (proj2 (ExtractTokenFromHeader_nonempty_iff
                  (mkRequest "POST" [Plain "bEaReR"; Plain "xyz"] ∅ ∅ no_user "1.2.3.4:5")
                  (Plain "xyz") eq_refl)).
  exists "bEaReR". split; reflexivity.
Defined.

(** X5.  A well-formed token is turned away unless its payload has an
    "expiry" that is a number other than 0: the expiry the middleware
    seeds the claims map with does not stand in for a missing one, and
    a string or null "expiry" does not pass. *)
Theorem AuthMiddleware_requires_numeric_expiry :
  forall (hmac : SigningMethod -> string -> SigningMethod * gmap string JSON -> string)
         (S A : Type) (next : Request -> S -> Response A * S)
         (now : Z) (r : Request) (s : S) (t : Jws),
    ExtractTokenFromHeader r = Compact t ->
    (forall n, payload t !! "expiry" = Some (JNumber n) -> n = 0) ->
    exists msg, AuthMiddleware hmac next now r s = (Error msg StatusUnauthorized, s)
                /\ (msg = "Invalid token" \/ msg = "Expired token").
Proof.
  intros hmac S A next now r s t E H. rewrite AuthMiddleware_cases, E. simpl.
  destruct (Valid _ now && Verify hmac _ _ _ _); [|eauto].
  destruct (payload t !! "expiry") as [[n| | | |]|]; eauto.
  rewrite (H n eq_refl). simpl. eauto.
Qed.

Lemma AuthMiddleware_requires_numeric_expiry_witness :
  exists msg,
    AuthMiddleware sample_hmac sample_next 1700000000
      (bearer_request
         (Compact (mkJws HS256 (<["email" := JString "a@x.com"]> ∅) "mac()"))) 0%nat
    = (Error msg StatusUnauthorized, 0%nat)
    /\ (msg = "Invalid token" \/ msg = "Expired token").
Proof.
  apply (AuthMiddleware_requires_numeric_expiry sample_hmac nat unit sample_next
           1700000000 _ 0%nat
           (mkJws HS256 (<["email" := JString "a@x.com"]> ∅) "mac()")).
  - reflexivity.
  - intros n H. vm_compute in H. discriminate H.
Defined.

(** ** Invitation codes: issuing *)

Lemma string_length_app (s1 s2 : string) :
  String.length (s1 +:+ s2) = (String.length s1 + String.length s2)%nat.
Proof. induction s1 as [|c s1 IH]; simpl; [reflexivity | rewrite IH; reflexivity]. Qed.

Lemma list_ascii_app (s1 s2 : string) :
  list_ascii_of_string (s1 +:+ s2)
  = (list_ascii_of_string s1 ++ list_ascii_of_string s2)%list.
Proof. induction s1 as [|c s1 IH]; simpl; [reflexivity | rewrite IH; reflexivity]. Qed.

(** lists, three elements at a time *)
Lemma list_ind3 {X : Type} (P : list X -> Prop) :
  P [] -> (forall a, P [a]) -> (forall a b, P [a; b]) ->
  (forall a b c rest, P rest -> P (a :: b :: c :: rest)) ->
  forall l, P l.
Proof.
  intros H0 H1 H2 H3 l.
  assert (P l /\ (forall a, P (a :: l)) /\ (forall a b, P (a :: b :: l))) as [H _].
  { induction l as [|x l (IH0 & IH1 & IH2)]; [auto|].
    split; [apply IH1 | split; [intros a; apply IH2 | intros a b; apply H3, IH0]]. }
  exact H.
Qed.

(** a digit below 64 is one character *)
Lemma digit_length (n : Z) : 0 <= n < 64 -> String.length (base64.digit n) = 1%nat.
Proof.
  intros H. unfold base64.digit.
  assert (Z.to_nat n < 64)%nat as K by lia.
  generalize dependent (Z.to_nat n). intros k K.
  do 64 (destruct k as [|k]; [reflexivity|]). lia.
Qed.

(** whatever its argument, a digit is empty or a character of the alphabet *)
Lemma digit_url_safe (n : Z) :
  Forall (fun c => url_safe c = true) (list_ascii_of_string (base64.digit n)).
Proof.
  unfold base64.digit. generalize (Z.to_nat n). intros k.
  do 64 (destruct k as [|k]; [repeat constructor|]). simpl. constructor.
Qed.

Lemma shiftr2_digit (a : Z) : is_byte a -> 0 <= Z.shiftr a 2 < 64.
Proof.
  intros [H0 H1]. rewrite Z.shiftr_div_pow2 by lia. change (2 ^ 2) with 4.
  split; [apply Z.div_pos; lia | apply Z.div_lt_upper_bound; lia].
Qed.

Lemma land63_digit (x : Z) : 0 <= Z.land x 63 < 64.
Proof.
  change 63 with (Z.ones 6). rewrite Z.land_ones by lia.
  apply Z.mod_pos_bound. reflexivity.
Qed.

(** X6.  [base64.EncodeToString] writes four characters for every
    three bytes, the last group padded: n bytes give 4 * ceil(n / 3)
    characters, so the 16 bytes of an invitation code give 24. *)
Theorem EncodeToString_length :
  forall src : list Z,
    Forall is_byte src ->
    String.length (base64.EncodeToString src)
    = (4 * ((List.length src + 2) / 3))%nat.
Proof.
  intros src. induction src as [|a|a b|a b c rest IH] using list_ind3; intros F.
  - reflexivity.
  - inversion F as [|? ? Ha _]; subst. simpl.
    rewrite !string_length_app, (digit_length _ (shiftr2_digit a Ha)),
      (digit_length _ (land63_digit _)). reflexivity.
  - inversion F as [|? ? Ha F']; subst. simpl.
    rewrite !string_length_app, (digit_length _ (shiftr2_digit a Ha)),
      !(digit_length _ (land63_digit _)). reflexivity.
  - inversion F as [|? ? Ha F1]; subst. inversion F1 as [|? ? Hb F2]; subst.
    inversion F2 as [|? ? Hc F3]; subst.
    change (base64.EncodeToString (a :: b :: c :: rest))
      with (base64.digit (Z.shiftr a 2)
            +:+ base64.digit (Z.land (Z.lor (Z.shiftl a 4) (Z.shiftr b 4)) 63)
            +:+ base64.digit (Z.land (Z.lor (Z.shiftl b 2) (Z.shiftr c 6)) 63)
            +:+ base64.digit (Z.land c 63)
            +:+ base64.EncodeToString rest).
    rewrite !string_length_app, (digit_length _ (shiftr2_digit a Ha)),
      !(digit_length _ (land63_digit _)), (IH F3).
    cbn [List.length].
    replace (Datatypes.S (Datatypes.S (Datatypes.S (List.length rest))) + 2)%nat
      with (List.length rest + 2 + 1 * 3)%nat by lia.
    rewrite Nat.div_add by lia. lia.
Qed.

Lemma EncodeToString_length_witness :
  String.length
    (base64.EncodeToString [1; 2; 3; 4; 5; 6; 7; 8; 9; 10; 11; 12; 13; 14; 15; 16])
  = (4 * ((16 + 2) / 3))%nat.
Proof.
  apply (EncodeToString_length [1; 2; 3; 4; 5; 6; 7; 8; 9; 10; 11; 12; 13; 14; 15; 16]).
  repeat constructor; unfold is_byte; lia.
Defined.

(** X7.  Every character [base64.EncodeToString] writes is a letter, a
    digit, '-', '_' or the padding '=': a code never holds '+' or '/'. *)
Theorem EncodeToString_url_safe :
  forall src : list Z,
    Forall (fun c => url_safe c = true)
           (list_ascii_of_string (base64.EncodeToString src)).
Proof.
  intros src. induction src as [|a|a b|a b c rest IH] using list_ind3.
  - constructor.
  - simpl. rewrite !list_ascii_app. repeat apply Forall_app_2; try apply digit_url_safe.
    repeat constructor.
  - simpl. rewrite !list_ascii_app. repeat apply Forall_app_2; try apply digit_url_safe.
    repeat constructor.
  - change (base64.EncodeToString (a :: b :: c :: rest))
      with (base64.digit (Z.shiftr a 2)
            +:+ base64.digit (Z.land (Z.lor (Z.shiftl a 4) (Z.shiftr b 4)) 63)
            +:+ base64.digit (Z.land (Z.lor (Z.shiftl b 2) (Z.shiftr c 6)) 63)
            +:+ base64.digit (Z.land c 63)
            +:+ base64.EncodeToString rest).
    rewrite !list_ascii_app. repeat apply Forall_app_2; try apply digit_url_safe.
    exact IH.
Qed.

(** X8.  [GenerateInvitationCodeHandler] answers 200 or 500, never 201
    (the status is sent with the body, before [WriteHeader]).  On 200
    the table has exactly one more record, the last: unused, bound to
    the email of the form, carrying the code of the answer, which is
    the encoding of the random bytes; the other tables are as before.
    On 500 nothing has changed. *)
Theorem GenerateInvitationCodeHandler_effect :
  forall (env : InviteEnv) (r : Request) (db : DB),
    let res := GenerateInvitationCodeHandler env r db in
    (status res.1 = StatusOK /\
     exists codeBytes,
       rand_Read env = inl codeBytes
       /\ body res.1 = Json (mkInvitationCode (base64.EncodeToString codeBytes) false)
       /\ invitation_codes res.2
          = (invitation_codes db
             ++ [mkInvitation (inv_new_id env) (base64.EncodeToString codeBytes)
                   (FormValue r "email") false (inv_new_expires_at env)])%list
       /\ users res.2 = users db /\ sessions res.2 = sessions db)
    \/ (status res.1 = StatusInternalServerError /\ res.2 = db
        /\ (is_Some (inv_exec_err env) \/ exists err, rand_Read env = inr err)).
Proof.
  intros env r db. cbv zeta.
  unfold GenerateInvitationCodeHandler, run, bind, reject_err, reply, ret, get, put.
  destruct (rand_Read env) as [codeBytes|err]; [|right; simpl; eauto].
  destruct (inv_exec_err env) as [err|]; simpl; [right; eauto|].
  left. split; [reflexivity|]. exists codeBytes. auto.
Qed.

(** ** Invitation codes: registering *)

(** X9.  [RegisterHandler] fails closed: it answers 201 only to a POST
    for which every database call and the hashing succeeded.  A failure
    of any call it reaches is never answered with a success. *)
Theorem RegisterHandler_fails_closed :
  forall (env : RegisterEnv) (r : Request) (db : DB),
    status (RegisterHandler env r db).1 = StatusCreated ->
    Method r = "POST" /\ untroubled env r.
Proof.
  intros env r db. rewrite RegisterHandler_cases. cbv zeta. unfold untroubled.
  destruct (String.eqb (Method r) "POST") eqn:M; simpl; [|discriminate].
  apply String.eqb_eq in M.
  destruct (err_codeExists env); [discriminate|].
  destruct (negb (select_exists _ db)); [discriminate|].
  destruct (err_IsCodeUsed env); [discriminate|].
  destruct (select_exists (where_code_used_email _ _) db); [discriminate|].
  destruct (err_isValidCode env); [discriminate|].
  destruct (negb (select_exists _ db)); [discriminate|].
  destruct (bcrypt_GenerateFromPassword env _) as [h|]; [|discriminate].
  destruct (err_insert_user env); [discriminate|].
  destruct (err_update env); [discriminate|].
  intros _. repeat split; eauto.
Qed.

Lemma RegisterHandler_fails_closed_witness :
  Method (register_request alice) = "POST"
  /\ untroubled (calm (seconds 30)) (register_request alice).
Proof.
  apply (RegisterHandler_fails_closed (calm (seconds 30)) (register_request alice)
           (one_code false)).
  reflexivity.
Defined.

(** X10.  Registration is not atomic.  When the checks pass and the
    user is inserted but the UPDATE fails, the answer is 500, the user
    stays in the table and the code stays as it was; if the same
    request is then repeated with nothing failing, it is accepted and
    the user is in the table twice. *)
Theorem RegisterHandler_update_failure_keeps_user :
  forall (env env' : RegisterEnv) (r : Request) (db : DB) (h h' err : string),
    Method r = "POST" ->
    err_codeExists env = None -> err_IsCodeUsed env = None ->
    err_isValidCode env = None ->
    ~ has_used_record (Code (Body r)) (Email (Body r)) db ->
    has_live_record (reg_NOW env) (Code (Body r)) (Email (Body r)) db ->
    bcrypt_GenerateFromPassword env (Password (Body r)) = inl h ->
    err_insert_user env = None ->
    err_update env = Some err ->
    untroubled env' r ->
    bcrypt_GenerateFromPassword env' (Password (Body r)) = inl h' ->
    reg_NOW env' = reg_NOW env ->
    let failed := RegisterHandler env r db in
    let retried := RegisterHandler env' r failed.2 in
    failed.1 = Error err StatusInternalServerError
    /\ invitation_codes failed.2 = invitation_codes db
    /\ users failed.2 = (users db ++ [mkUserRow (reg_new_id env) (Email (Body r)) h])%list
    /\ status retried.1 = StatusCreated
    /\ users retried.2
       = (users db ++ [mkUserRow (reg_new_id env) (Email (Body r)) h;
                       mkUserRow (reg_new_id env') (Email (Body r)) h'])%list.
Proof.
  intros env env' r db h h' err M E1 E2 E3 NU L B E5 E6 U' B' N. cbv zeta.
  assert (Q3 := proj2 (select_code_unused_email_live _ _ _ _) L).
  assert (Q1 : select_exists (where_code_email (Code (Body r)) (Email (Body r))) db = true).
  { apply select_code_email. destruct L as (row & t & I & H1 & H2 & _). exists row; auto. }
  assert (Q2 : select_exists (where_code_used_email (Code (Body r)) (Email (Body r))) db
               = false).
  { destruct (select_exists (where_code_used_email _ _) db) eqn:Q; [|reflexivity].
    apply select_code_used_email in Q. contradiction. }
  assert (F : RegisterHandler env r db
              = (Error err StatusInternalServerError,
                 insert_user (reg_new_id env) (Email (Body r)) h db)).
  { rewrite RegisterHandler_cases. cbv zeta.
    rewrite M, E1, E2, E3, Q1, Q2, Q3, B, E5, E6. reflexivity. }
  rewrite F. simpl. repeat split.
  - destruct U' as (U1 & U2 & U3 & _ & U5 & U6).
    rewrite RegisterHandler_cases. cbv zeta.
    unfold select_exists in *. simpl.
    rewrite M, U1, U2, U3, N, Q1, Q2, Q3, B', U5, U6. reflexivity.
  - destruct U' as (U1 & U2 & U3 & _ & U5 & U6).
    rewrite RegisterHandler_cases. cbv zeta.
    unfold select_exists in *. simpl.
    rewrite M, U1, U2, U3, N, Q1, Q2, Q3, B', U5, U6. simpl.
    rewrite <- app_assoc. reflexivity.
Qed.

Lemma RegisterHandler_update_failure_keeps_user_witness :
  let failed :=
    RegisterHandler
      (mkRegisterEnv (seconds 30) None None None (fun pw => inl ("$2a$10$" +:+ pw))
         None 1 (Some "pq: connection reset"))
      (register_request alice) (one_code false) in
  failed.1 = Error "pq: connection reset" StatusInternalServerError
  /\ invitation_codes failed.2 = invitation_codes (one_code false)
  /\ users failed.2 = [mkUserRow 1 "a@x.com" "$2a$10$secret"]
  /\ status (RegisterHandler (calm (seconds 30)) (register_request alice) failed.2).1
     = StatusCreated
  /\ users (RegisterHandler (calm (seconds 30)) (register_request alice) failed.2).2
     = [mkUserRow 1 "a@x.com" "$2a$10$secret"; mkUserRow 1 "a@x.com" "$2a$10$secret"].
Proof.
  apply (RegisterHandler_update_failure_keeps_user
           (mkRegisterEnv (seconds 30) None None None (fun pw => inl ("$2a$10$" +:+ pw))
              None 1 (Some "pq: connection reset"))
           (calm (seconds 30)) (register_request alice) (one_code false)
           "$2a$10$secret" "$2a$10$secret" "pq: connection reset");
    try reflexivity.
  - intros (row & [<- | []] & _ & _ & U). discriminate U.
  - exists (mkInvitation 1 "abc123" "a@x.com" false (Some (seconds 1000))),
      (seconds 1000).
    simpl. unfold seconds, minutes, seconds. repeat split; auto; lia.
  - unfold untroubled; simpl. repeat split; eexists; reflexivity.
Defined.

Lemma mark_used_keeps_fields (c : string) (row : InvitationRow) :
  inv_id (mark_used c row) = inv_id row
  /\ inv_code (mark_used c row) = inv_code row
  /\ inv_email (mark_used c row) = inv_email row
  /\ inv_expires_at (mark_used c row) = inv_expires_at row.
Proof.
  unfold mark_used. destruct (String.eqb (inv_code row) c); simpl; auto.
Qed.

Lemma mark_used_other_code (c : string) (row : InvitationRow) :
  inv_code row <> c -> mark_used c row = row.
Proof.
  intros N. unfold mark_used. apply String.eqb_neq in N. rewrite N. reflexivity.
Qed.

(** The tables after [RegisterHandler], in its three possible forms. *)
Lemma RegisterHandler_tables (env : RegisterEnv) (r : Request) (db : DB) :
  (RegisterHandler env r db).2 = db
  \/ (exists h, bcrypt_GenerateFromPassword env (Password (Body r)) = inl h
                /\ ((RegisterHandler env r db).2
                    = insert_user (reg_new_id env) (Email (Body r)) h db
                    \/ (RegisterHandler env r db).2
                       = update_used (Code (Body r))
                           (insert_user (reg_new_id env) (Email (Body r)) h db))).
Proof.
  rewrite RegisterHandler_cases. cbv zeta.
  destruct (negb (String.eqb (Method r) "POST")); [left; reflexivity|].
  destruct (err_codeExists env); [left; reflexivity|].
  destruct (negb (select_exists _ db)); [left; reflexivity|].
  destruct (err_IsCodeUsed env); [left; reflexivity|].
  destruct (select_exists (where_code_used_email _ _) db); [left; reflexivity|].
  destruct (err_isValidCode env); [left; reflexivity|].
  destruct (negb (select_exists _ db)); [left; reflexivity|].
  destruct (bcrypt_GenerateFromPassword env _) as [h|]; [|left; reflexivity].
  destruct (err_insert_user env); [left; reflexivity|].
  right. exists h. split; [reflexivity|].
  destruct (err_update env); [left | right]; reflexivity.
Qed.

(** X11.  What [RegisterHandler] leaves alone.  It never adds, removes
    or reorders invitation records, and never changes a record's id,
    code, email or expiry; a record with another code than the
    request's is not changed at all; the sessions are untouched; and
    the users table is as before or has one more row, which holds the
    email of the request and what bcrypt returned, not the password. *)
Theorem RegisterHandler_frame :
  forall (env : RegisterEnv) (r : Request) (db : DB),
    let db' := (RegisterHandler env r db).2 in
    map (fun row => (inv_id row, inv_code row, inv_email row, inv_expires_at row))
        (invitation_codes db')
    = map (fun row => (inv_id row, inv_code row, inv_email row, inv_expires_at row))
          (invitation_codes db)
    /\ (forall (i : nat) (row : InvitationRow),
          invitation_codes db !! i = Some row -> inv_code row <> Code (Body r) ->
          invitation_codes db' !! i = Some row)
    /\ sessions db' = sessions db
    /\ (users db' = users db
        \/ exists h, bcrypt_GenerateFromPassword env (Password (Body r)) = inl h
                     /\ users db'
                        = (users db ++ [mkUserRow (reg_new_id env) (Email (Body r)) h])%list).
Proof.
  intros env r db. cbv zeta.
  destruct (RegisterHandler_tables env r db) as [-> | (h & B & [-> | ->])].
  - repeat split; auto.
  - simpl. repeat split; eauto.
  - simpl. repeat split; eauto.
    + rewrite map_map. apply map_ext. intros row.
      destruct (mark_used_keeps_fields (Code (Body r)) row) as (-> & -> & -> & ->).
      reflexivity.
    + intros i row L N. rewrite list_lookup_fmap, L. simpl.
      rewrite (mark_used_other_code _ _ N). reflexivity.
Qed.

Lemma RegisterHandler_frame_witness :
  invitation_codes
    (RegisterHandler (calm (seconds 30))
       (register_request (mkUser "b@y.com" "pw" "def456"))
       (mkDB [mkInvitation 1 "abc123" "a@x.com" false (Some (seconds 1000));
              mkInvitation 2 "def456" "b@y.com" false (Some (seconds 1000))] [] [])).2
    !! 0%nat
  = Some (mkInvitation 1 "abc123" "a@x.com" false (Some (seconds 1000))).
Proof.
  apply (proj1 (proj2 (RegisterHandler_frame (calm (seconds 30))
                         (register_request (mkUser "b@y.com" "pw" "def456"))
                         (mkDB [mkInvitation 1 "abc123" "a@x.com" false
                                  (Some (seconds 1000));
                                mkInvitation 2 "def456" "b@y.com" false
                                  (Some (seconds 1000))] [] [])))).
  - reflexivity.
  - simpl. discriminate.
Defined.

(** ** Login *)

(** X12.  [LoginHandler] answers 200 exactly when the request carries a
    token, is a POST, the account is found and the password matches its
    hash, and the session is inserted.  The tables then have one more
    session, the last, holding the token as it was presented and the
    id of the account; when the id lookup fails its error is dropped
    and the session is stored under id 0. *)
Theorem LoginHandler_success :
  forall (env : LoginEnv) (r : Request) (db : DB),
    let res := LoginHandler env r db in
    (status res.1 = StatusOK
     <-> isEmpty (ExtractTokenFromHeader r) = false /\ Method r = "POST"
         /\ err_select_hash env = None
         /\ (exists row, select_user (Email (Body r)) db = Some row
                         /\ bcrypt_matches env (usr_password_hash row)
                              (Password (Body r)) = true)
         /\ err_insert_session env = None)
    /\ (status res.1 = StatusOK ->
        forall row, select_user (Email (Body r)) db = Some row ->
          res.2 = insert_session
                    (if err_select_id env is Some _ then 0 else usr_id row)
                    (ExtractTokenFromHeader r) db).
Proof.
  intros env r db. cbv zeta. rewrite LoginHandler_cases. cbv zeta.
  destruct (isEmpty (ExtractTokenFromHeader r));
    [split; [split; [discriminate | intros (H & _); discriminate] | discriminate]|].
  destruct (String.eqb (Method r) "POST") eqn:M; simpl.
  2:{ apply String.eqb_neq in M.
      split; [split; [discriminate | intros (_ & H & _); contradiction] | discriminate]. }
  apply String.eqb_eq in M.
  destruct (err_select_hash env) as [e|].
  { split; [split; [discriminate | intros (_ & _ & H & _); discriminate] | discriminate]. }
  destruct (select_user (Email (Body r)) db) as [row|] eqn:Q.
  2:{ split; [split; [discriminate|] | discriminate].
      intros (_ & _ & _ & (row & H & _) & _). discriminate. }
  destruct (bcrypt_matches env (usr_password_hash row) (Password (Body r))) eqn:P; simpl.
  2:{ split; [split; [discriminate|] | discriminate].
      intros (_ & _ & _ & (row' & [= <-] & H) & _). congruence. }
  destruct (err_insert_session env) as [e|]; simpl.
  { split; [split; [discriminate | intros (_ & _ & _ & _ & H); discriminate]
           | discriminate]. }
  split.
  - split; [|reflexivity]. intros _. repeat split; eauto.
  - intros _ row' [= <-]. destruct (err_select_id env); reflexivity.
Qed.

Lemma LoginHandler_success_witness :
  (LoginHandler
     (mkLoginEnv (fun h pw => String.eqb h ("$2a$10$" +:+ pw)) None (Some "pq: timeout")
        None)
     (login_request (mkUser "a@x.com" "secret" "")) one_user).2
  = insert_session 0 sample_token one_user.
Proof.
  apply (proj2 (LoginHandler_success
                  (mkLoginEnv (fun h pw => String.eqb h ("$2a$10$" +:+ pw)) None
                     (Some "pq: timeout") None)
                  (login_request (mkUser "a@x.com" "secret" "")) one_user)
           eq_refl (mkUserRow 7 "a@x.com" "$2a$10$secret")).
  reflexivity.
Defined.

(** X13.  [LoginHandler] never touches the users or the invitation
    codes, and a login that is not answered 200 leaves every table as
    it was: no session is recorded for a failed login. *)
Theorem LoginHandler_frame :
  forall (env : LoginEnv) (r : Request) (db : DB),
    users (LoginHandler env r db).2 = users db
    /\ invitation_codes (LoginHandler env r db).2 = invitation_codes db
    /\ (status (LoginHandler env r db).1 <> StatusOK -> (LoginHandler env r db).2 = db).
Proof.
  intros env r db. rewrite LoginHandler_cases. cbv zeta.
  destruct (isEmpty (ExtractTokenFromHeader r)); [auto|].
  destruct (negb (String.eqb (Method r) "POST")); [auto|].
  destruct (if err_select_hash env is Some _ then None else select_user _ db) as [row|];
    [|auto].
  destruct (negb (bcrypt_matches env _ _)); [auto|].
  destruct (err_insert_session env); [auto|].
  simpl. repeat split. intros H. contradiction H. reflexivity.
Qed.

Lemma LoginHandler_frame_witness :
  (LoginHandler sample_login_env (login_request (mkUser "a@x.com" "guess" "")) one_user).2
  = one_user.
Proof.
  apply (proj2 (proj2 (LoginHandler_frame sample_login_env
                         (login_request (mkUser "a@x.com" "guess" "")) one_user))).
  vm_compute. discriminate.
Defined.

(** ** Sweeper *)

(** X14.  [GetExpiredInvitations] returns the error of a failed query,
    and otherwise exactly the records that are unused and whose
    [expires_at] lies more than two minutes back: an invitation is in
    the result if and only if it is the id and email of such a record.
    A used record, a record without [expires_at] and a record inside
    the two minutes are never returned. *)
Theorem GetExpiredInvitations_reports :
  forall s : Snapshot,
    (forall err, snap_err s = Some err -> GetExpiredInvitations s = inr err)
    /\ (snap_err s = None ->
        exists invs,
          GetExpiredInvitations s = inl invs
          /\ forall inv,
               In inv invs
               <-> exists row t,
                     In row (invitation_codes (snap_db s))
                     /\ inv = mkInv (inv_id row) (inv_email row)
                     /\ inv_used row = false
                     /\ inv_expires_at row = Some t
                     /\ t + minutes 2 < snap_NOW s).
Proof.
  intros s. unfold GetExpiredInvitations. split.
  - intros err ->. reflexivity.
  - intros ->. eexists. split; [reflexivity|]. intros inv.
    rewrite in_map_iff. split.
    + intros (row & <- & I). apply list_elem_of_In, list_elem_of_filter in I.
      destruct I as [P I]. apply list_elem_of_In in I.
      unfold where_unused_expired, expires_before_grace in P.
      apply andb_prop in P as [U X]. apply negb_true_iff in U.
      destruct (inv_expires_at row) as [t|] eqn:E; [|discriminate].
      apply Z.ltb_lt in X. exists row, t. repeat split; auto. lia.
    + intros (row & t & I & -> & U & E & L). exists row. split; [reflexivity|].
      apply list_elem_of_In, list_elem_of_filter. split; [|apply list_elem_of_In; exact I].
      unfold where_unused_expired, expires_before_grace. rewrite U, E. simpl.
      apply Z.ltb_lt. lia.
Qed.

Lemma GetExpiredInvitations_reports_witness :
  GetExpiredInvitations store_down = inr "EOF"
  /\ exists invs, GetExpiredInvitations store_up = inl invs.
Proof.
  split.
  - apply (proj1 (GetExpiredInvitations_reports store_down) "EOF"). reflexivity.
  - destruct (proj2 (GetExpiredInvitations_reports store_up) eq_refl) as (invs & H & _).
    exists invs. exact H.
Defined.

(** X15.  The window of the registration and the window of the sweeper
    do not meet: at no instant does a record pass both the third query
    of [RegisterHandler] and the query of the sweeper.  Between them
    lies one instant, [expires_at] plus two minutes exactly, at which a
    record passes neither; and a record without [expires_at] never
    passes either. *)
Theorem registration_and_sweep_windows :
  forall (now : Z) (c e : string) (row : InvitationRow),
    ~ (where_code_unused_email_live now c e row = true
       /\ where_unused_expired now row = true)
    /\ (inv_expires_at row = Some (now - minutes 2) ->
        where_code_unused_email_live now c e row = false
        /\ where_unused_expired now row = false)
    /\ (inv_expires_at row = None ->
        where_code_unused_email_live now c e row = false
        /\ where_unused_expired now row = false).
Proof.
  intros now c e row.
  unfold where_code_unused_email_live, where_unused_expired, expires_after_grace,
    expires_before_grace.
  destruct (inv_expires_at row) as [t|].
  - split; [|split].
    + intros [H1 H2]. apply andb_prop in H1 as [_ H1]. apply andb_prop in H2 as [_ H2].
      apply Z.ltb_lt in H1, H2. lia.
    + intros [= ->]. rewrite Z.ltb_irrefl, !andb_false_r. split; reflexivity.
    + discriminate.
  - rewrite !andb_false_r. split; [|split].
    + intros [H _]. discriminate.
    + discriminate.
    + intros _. split; reflexivity.
Qed.

Lemma registration_and_sweep_windows_witness :
  where_code_unused_email_live (seconds 1120) "abc123" "a@x.com"
    (mkInvitation 1 "abc123" "a@x.com" false (Some (seconds 1000))) = false
  /\ where_unused_expired (seconds 1120)
       (mkInvitation 1 "abc123" "a@x.com" false (Some (seconds 1000))) = false.
Proof.
  apply (proj1 (proj2 (registration_and_sweep_windows (seconds 1120) "abc123" "a@x.com"
                         (mkInvitation 1 "abc123" "a@x.com" false
                            (Some (seconds 1000)))))).
  reflexivity.
Defined.

Lemma resend_all_ResendInvitation (invs : list Invitation) :
  resend_all ResendInvitation invs
  = map (fun inv => Printed ("Resending invitation to " +:+ Email_ inv)) invs.
Proof. induction invs as [|inv invs IH]; simpl; [reflexivity | rewrite IH; reflexivity]. Qed.

(** X16.  A pass of [ProcessResendCodes] whose query succeeds is the
    query, then one "Resending invitation to ..." line per invitation
    found, in the order of the result, then one sleep of two hours:
    [ResendInvitation] sends nothing and never fails, so no
    "Error resending invitation" line is ever printed. *)
Theorem sweep_pass_with_ResendInvitation :
  forall (s : Snapshot) (invs : list Invitation),
    GetExpiredInvitations s = inl invs ->
    sweep_once ResendInvitation s
    = (Queried
       :: map (fun inv => Printed ("Resending invitation to " +:+ Email_ inv)) invs
       ++ [Slept 7200])%list.
Proof.
  intros s invs E. rewrite (sweep_once_success ResendInvitation s invs E).
  rewrite resend_all_ResendInvitation. reflexivity.
Qed.

Lemma sweep_pass_with_ResendInvitation_witness :
  sweep_once ResendInvitation store_up
  = [Queried; Printed "Resending invitation to a@x.com"; Slept 7200].
Proof.
  apply (sweep_pass_with_ResendInvitation store_up [mkInv 1 "a@x.com"]).
  reflexivity.
Defined.

Lemma count_events_app (kind : Event -> bool) (tr1 tr2 : list Event) :
  count_events kind (tr1 ++ tr2) = (count_events kind tr1 + count_events kind tr2)%nat.
Proof. unfold count_events. rewrite List.filter_app, length_app. reflexivity. Qed.

Lemma slept_app (tr1 tr2 : list Event) : slept (tr1 ++ tr2) = slept tr1 + slept tr2.
Proof.
  induction tr1 as [|e tr1 IH]; simpl; [reflexivity|].
  destruct e; rewrite ?IH; lia.
Qed.

Lemma sweep_once_counts (s : Snapshot) :
  count_events is_query (sweep_once ResendInvitation s) = 1%nat
  /\ slept (sweep_once ResendInvitation s)
     = match snap_err s with None => 7200 | Some _ => 0 end.
Proof.
  unfold sweep_once, GetExpiredInvitations.
  destruct (snap_err s) as [err|]; [split; reflexivity|].
  rewrite resend_all_ResendInvitation.
  generalize (filter (fun row => where_unused_expired (snap_NOW s) row = true)
                (invitation_codes (snap_db s))).
  intros rows. split.
  - change (Queried :: ?l)%list with ([Queried] ++ l)%list.
    rewrite !count_events_app. unfold count_events at 1 3. simpl.
    induction rows as [|row rows IH]; simpl; [reflexivity|].
    unfold count_events in *. simpl. exact IH.
  - change (Queried :: ?l)%list with ([Queried] ++ l)%list.
    rewrite !slept_app. simpl.
    induction rows as [|row rows IH]; simpl; [reflexivity | exact IH].
Qed.

(** X17.  Over any number of passes, [ProcessResendCodes] sends one
    query per pass and sleeps two hours for each query that succeeded,
    and not at all for the ones that failed. *)
Theorem ProcessResendCodes_counts :
  forall store : list Snapshot,
    count_events is_query (ProcessResendCodes store) = List.length store
    /\ slept (ProcessResendCodes store) = 7200 * Z.of_nat (List.length (answered store)).
Proof.
  intros store. unfold ProcessResendCodes.
  induction store as [|s store [IH1 IH2]]; [split; reflexivity|].
  simpl ProcessResendCodesWith.
  rewrite count_events_app, slept_app, IH1, IH2.
  destruct (sweep_once_counts s) as [-> ->].
  split; [reflexivity|].
  unfold answered. simpl. destruct (snap_err s); simpl List.length; lia.
Qed.

(** ** [main] *)

(** X18.  [main] serves only behind a database that answered.  When
    [sql.Open] or [db.Ping] fails the process exits with status 1
    having registered no route and opened no listener; when both
    succeed the four routes are registered, in the order /token,
    /invite, /register, /login, before the listener on :8012 is
    entered, and the process then stays in the listener or, when the
    listener returns its error, exits with status 1. *)
Theorem main_serves_behind_database :
  forall env : MainEnv,
    ((is_Some (sql_Open_err env) \/ is_Some (db_Ping_err env)) ->
       (main env).2 = inr (Exited 1)
       /\ forall e, In e (main env).1 -> exists line, e = Logged line)
    /\ (sql_Open_err env = None -> db_Ping_err env = None ->
        exists rest,
          (main env).1
          = ([Logged "Successfully connected to the database";
              Routed "/token"; Routed "/invite"; Routed "/register"; Routed "/login";
              Logged "Server started on :8012"; Serving ":8012"] ++ rest)%list
          /\ match ListenAndServe_err env with
             | None => rest = [] /\ (main env).2 = inr Blocked
             | Some err => rest = [Logged err] /\ (main env).2 = inr (Exited 1)
             end).
Proof.
  intros env. unfold main, SetupDatabase, ListenAndServe. split.
  - intros H. destruct (sql_Open_err env) as [e1|].
    + simpl. split; [reflexivity|]. intros e [<- | []]. eauto.
    + destruct H as [[x H] | [x H]]; [discriminate|]. rewrite H. simpl.
      split; [reflexivity|]. intros e [<- | []]. eauto.
  - intros -> ->. destruct (ListenAndServe_err env) as [err|]; simpl.
    + exists [Logged err]. auto.
    + exists []. auto.
Qed.

Lemma main_serves_behind_database_witness :
  (main (mkMainEnv None (Some "dial tcp 127.0.0.1:5432: connection refused") None [])).2
  = inr (Exited 1).
Proof.
  apply (proj1 (main_serves_behind_database
                  (mkMainEnv None (Some "dial tcp 127.0.0.1:5432: connection refused")
                     None []))).
  right. eexists. reflexivity.
Defined.

(** ** Rate limiter *)

(** X19.  While the clock does not go back, [TakeAvailable] keeps the
    bucket between empty and full and hands out no more than asked for:
    the tokens taken are between 0 and [count], the tokens left are
    between 0 and the capacity, taken and left together do not exceed
    the capacity, and the bucket's configuration is not changed. *)
Theorem TakeAvailable_bounds :
  forall (tb : Bucket) (now count : Z),
    0 <= availableTokens tb <= capacity tb ->
    0 <= quantum tb ->
    latestTick tb <= currentTick tb now ->
    0 < count ->
    let taken := (TakeAvailable tb now count).1 in
    let tb' := (TakeAvailable tb now count).2 in
    0 <= taken <= count
    /\ 0 <= availableTokens tb' <= capacity tb'
    /\ taken + availableTokens tb' <= capacity tb
    /\ capacity tb' = capacity tb /\ quantum tb' = quantum tb
    /\ fillInterval tb' = fillInterval tb /\ startTime tb' = startTime tb
    /\ latestTick tb' = currentTick tb now.
Proof.
  intros tb now count A Q T C. cbv zeta.
  unfold TakeAvailable, adjustavailableTokens.
  set (k := currentTick tb now) in *.
  assert (0 <= (k - latestTick tb) * quantum tb) by nia.
  destruct (count <=? 0) eqn:C0; [apply Z.leb_le in C0; lia|].
  cbn [startTime capacity quantum fillInterval availableTokens latestTick].
  destruct (capacity tb <=? availableTokens tb) eqn:F;
    cbn [startTime capacity quantum fillInterval availableTokens latestTick].
  - apply Z.leb_le in F.
    destruct (availableTokens tb <=? 0) eqn:E;
      cbn [fst snd startTime capacity quantum fillInterval availableTokens latestTick].
    + apply Z.leb_le in E. repeat split; lia.
    + apply Z.leb_gt in E. destruct (availableTokens tb <? count) eqn:L;
        [apply Z.ltb_lt in L | apply Z.ltb_ge in L];
        cbn [fst snd startTime capacity quantum fillInterval availableTokens latestTick];
        repeat split; lia.
  - apply Z.leb_gt in F.
    set (a := availableTokens tb + (k - latestTick tb) * quantum tb) in *.
    destruct (capacity tb <? a) eqn:G;
      [apply Z.ltb_lt in G | apply Z.ltb_ge in G].
    + destruct (capacity tb <=? 0) eqn:E;
        cbn [fst snd startTime capacity quantum fillInterval availableTokens latestTick].
      * apply Z.leb_le in E. repeat split; lia.
      * apply Z.leb_gt in E. destruct (capacity tb <? count) eqn:L;
          [apply Z.ltb_lt in L | apply Z.ltb_ge in L];
          cbn [fst snd startTime capacity quantum fillInterval availableTokens latestTick];
          repeat split; lia.
    + destruct (a <=? 0) eqn:E;
        cbn [fst snd startTime capacity quantum fillInterval availableTokens latestTick].
      * apply Z.leb_le in E. repeat split; lia.
      * apply Z.leb_gt in E. destruct (a <? count) eqn:L;
          [apply Z.ltb_lt in L | apply Z.ltb_ge in L];
          cbn [fst snd startTime capacity quantum fillInterval availableTokens latestTick];
          repeat split; lia.
Qed.

Lemma TakeAvailable_bounds_witness :
  0 <= (TakeAvailable (mkBucket 0 5 2 Second 1 3) (4 * Second + 7) 10).1 <= 10
  /\ 0 <= availableTokens (TakeAvailable (mkBucket 0 5 2 Second 1 3) (4 * Second + 7) 10).2
     <= 5.
Proof.
  destruct (TakeAvailable_bounds (mkBucket 0 5 2 Second 1 3) (4 * Second + 7) 10)
    as (H1 & H2 & _).
  - simpl. lia.
  - simpl. lia.
  - vm_compute. discriminate.
  - lia.
  - split; [exact H1 | exact H2].
Defined.

(** X20.  [RateLimitMiddleware] keeps one bucket per client address:
    a request changes no bucket but that of its own address, which is
    in the map afterwards, and no bucket is ever removed. *)
Theorem RateLimitMiddleware_buckets :
  forall (S A : Type) (next : Request -> S -> Response A * S) (now : Z) (r : Request)
         (ipLimiterMap : gmap string Bucket) (s : S),
    let after := (RateLimitMiddleware next now r (ipLimiterMap, s)).2.1 in
    (forall ip, ip <> RemoteAddr r -> after !! ip = ipLimiterMap !! ip)
    /\ is_Some (after !! RemoteAddr r)
    /\ (forall ip, is_Some (ipLimiterMap !! ip) -> is_Some (after !! ip)).
Proof.
  intros S A next now r m s. cbv zeta. rewrite RateLimitMiddleware_cases. cbv zeta.
  assert (E : forall X Y : Response A * (gmap string Bucket * S),
             forall b : bool, (if b then X else Y).2.1 = if b then X.2.1 else Y.2.1)
    by (intros X Y []; reflexivity).
  rewrite E. simpl.
  destruct (_ =? 0); (split; [|split]).
  - intros ip N. apply lookup_insert_ne. congruence.
  - rewrite lookup_insert_eq. eauto.
  - intros ip I. destruct (decide (RemoteAddr r = ip)) as [<- | N].
    + rewrite lookup_insert_eq. eauto.
    + rewrite lookup_insert_ne by assumption. exact I.
  - intros ip N. apply lookup_insert_ne. congruence.
  - rewrite lookup_insert_eq. eauto.
  - intros ip I. destruct (decide (RemoteAddr r = ip)) as [<- | N].
    + rewrite lookup_insert_eq. eauto.
    + rewrite lookup_insert_ne by assumption. exact I.
Qed.

Lemma RateLimitMiddleware_buckets_witness :
  (RateLimitMiddleware sample_next (5 * Second) (bearer_request sample_token)
     ({["9.9.9.9:1" := mkBucket 0 1 1 Second 0 3]}, 0%nat)).2.1 !! "9.9.9.9:1"
  = ({["9.9.9.9:1" := mkBucket 0 1 1 Second 0 3]} : gmap string Bucket) !! "9.9.9.9:1".
Proof.
  apply (proj1 (RateLimitMiddleware_buckets nat unit sample_next (5 * Second)
                  (bearer_request sample_token)
                  {["9.9.9.9:1" := mkBucket 0 1 1 Second 0 3]} 0%nat)).
  discriminate.
Defined.

(** X21.  [RateLimitMiddleware] either answers 429 itself, and then the
    wrapped handler has not run (its state is as before), or it returns
    the answer and the state of the wrapped handler unchanged. *)
Theorem RateLimitMiddleware_throttles_or_forwards :
  forall (S A : Type) (next : Request -> S -> Response A * S) (now : Z) (r : Request)
         (ipLimiterMap : gmap string Bucket) (s : S),
    let res := RateLimitMiddleware next now r (ipLimiterMap, s) in
    (res.1 = Error "Rate limit exceeded" StatusTooManyRequests /\ res.2.2 = s)
    \/ (res.1 = (next r s).1 /\ res.2.2 = (next r s).2).
Proof.
  intros S A next now r m s. cbv zeta. rewrite RateLimitMiddleware_cases. cbv zeta.
  destruct (_ =? 0); [left | right]; split; reflexivity.
Qed.

(** One request against a bucket of the middleware ([a] tokens left,
    last used in tick [k]): what is taken and what is left keeps
    [taken + left - tick] from growing. *)
Lemma TakeAvailable_one (t0 t a k : Z) :
  a = 0 \/ a = 1 ->
  k <= Z.quot (t - t0) Second ->
  exists taken a',
    TakeAvailable (mkBucket t0 1 1 Second a k) t 1
    = (taken, mkBucket t0 1 1 Second a' (Z.quot (t - t0) Second))
    /\ (a' = 0 \/ a' = 1) /\ (taken = 0 \/ taken = 1)
    /\ taken + a' - Z.quot (t - t0) Second <= a - k.
Proof.
  intros A K. unfold TakeAvailable, adjustavailableTokens, currentTick.
  cbn [startTime capacity quantum fillInterval availableTokens latestTick].
  set (k' := Z.quot (t - t0) Second) in *.
  destruct A as [-> | ->]; simpl (1 <=? _); cbv iota.
  - replace (0 + (k' - k) * 1) with (k' - k) by lia.
    destruct (1 <? k' - k) eqn:G; [apply Z.ltb_lt in G | apply Z.ltb_ge in G].
    + exists 1, 0. simpl. repeat split; auto; lia.
    + destruct (k' - k <=? 0) eqn:E; [apply Z.leb_le in E | apply Z.leb_gt in E].
      * assert (k' - k = 0) as -> by lia. exists 0, 0. repeat split; auto; lia.
      * assert (k' - k = 1) as -> by lia. exists 1, 0. simpl.
        repeat split; auto; lia.
  - exists 1, 0. simpl. repeat split; auto; lia.
Qed.

Lemma last_cons_default (times : list Z) :
  forall t' t : Z, List.last (t' :: times) t = List.last times t'.
Proof.
  induction times as [|x times IH]; intros t' t; [reflexivity|].
  change (List.last (t' :: x :: times) t) with (List.last (x :: times) t).
  rewrite (IH x t), (IH x t'). reflexivity.
Qed.

(** The calls of the counting handler over a run of requests of one
    client whose bucket exists. *)
Lemma serve_at_bound (r : Request) (t0 : Z) (times : list Z) :
  forall (t a k : Z) (m : gmap string Bucket) (calls : nat),
    m !! RemoteAddr r = Some (mkBucket t0 1 1 Second a k) ->
    a = 0 \/ a = 1 ->
    k <= Z.quot (t - t0) Second ->
    nondecreasing t times ->
    Z.of_nat (serve_at times r (m, calls)).2
    <= Z.of_nat calls + a + Z.quot (List.last times t - t0) Second - k.
Proof.
  induction times as [|t' times IH]; intros t a k m calls M A K N.
  - simpl. lia.
  - destruct N as [L N].
    change (serve_at (t' :: times) r (m, calls))
      with (serve_at times r (RateLimitMiddleware sample_next t' r (m, calls)).2).
    assert (K' : k <= Z.quot (t' - t0) Second).
    { etransitivity; [exact K|]. apply Z.quot_le_mono; unfold Second; lia. }
    destruct (TakeAvailable_one t0 t' a k A K') as (taken & a' & T & A' & Tk & P).
    rewrite RateLimitMiddleware_cases. cbv zeta. rewrite M. cbn [from_option id].
    rewrite T. cbn [fst snd].
    rewrite (last_cons_default times t' t).
    destruct Tk as [-> | ->]; simpl (_ =? 0); cbv iota; cbn [fst snd].
    + etransitivity.
      * apply (IH t' a' (Z.quot (t' - t0) Second) _ calls);
          [apply lookup_insert_eq | exact A' | lia | exact N].
      * lia.
    + etransitivity.
      * apply (IH t' a' (Z.quot (t' - t0) Second) _ (Datatypes.S calls));
          [apply lookup_insert_eq | exact A' | lia | exact N].
      * lia.
Qed.

(** X22.  The limit holds over any run.  When a client the map has no
    bucket for sends requests at instants that do not go back, the
    first at [t0], the wrapped handler is called at most once plus once
    per full second between [t0] and the last request, however many
    requests there are. *)
Theorem RateLimitMiddleware_rate :
  forall (r : Request) (ipLimiterMap : gmap string Bucket) (calls : nat)
         (t0 : Z) (times : list Z),
    ipLimiterMap !! RemoteAddr r = None ->
    nondecreasing t0 times ->
    Z.of_nat (serve_at (t0 :: times) r (ipLimiterMap, calls)).2
    <= Z.of_nat calls + 1 + Z.quot (List.last times t0 - t0) Second.
Proof.
  intros r m calls t0 times M N.
  change (serve_at (t0 :: times) r (m, calls))
    with (serve_at times r (RateLimitMiddleware sample_next t0 r (m, calls)).2).
  rewrite (RateLimitMiddleware_first_sight sample_next t0 r m calls M). cbn [fst snd].
  etransitivity.
  - apply (serve_at_bound r t0 times t0 0 0 _ (Datatypes.S calls));
      [apply lookup_insert_eq | auto | rewrite Z.sub_diag; reflexivity | exact N].
  - lia.
Qed.

Lemma RateLimitMiddleware_rate_witness :
  Z.of_nat
    (serve_at [0; 0; 10; 999999999; 1000000000; 1000000001; 1999999999]
       (bearer_request sample_token) (∅, 0%nat)).2
  <= Z.of_nat 0 + 1 + Z.quot (1999999999 - 0) Second.
Proof.
  assert (N : (∅ : gmap string Bucket) !! RemoteAddr (bearer_request sample_token) = None)
    by reflexivity.
  apply (RateLimitMiddleware_rate (bearer_request sample_token) ∅ 0%nat 0
           [0; 10; 999999999; 1000000000; 1000000001; 1999999999] N).
  simpl. lia.
Defined.

(** X23.  On /login the limiter stands in front of the token check: a
    request without a token from a client the map has no bucket for is
    answered 401 by [AuthMiddleware] and still takes the client's
    token, so that the next request of that client in the same instant
    is answered 429 whatever it carries. *)
Theorem route_login_limits_before_auth :
  forall (hmac : SigningMethod -> string -> SigningMethod * gmap string JSON -> string)
         (nanos unix unix' : Z) (env env' : LoginEnv) (r1 r2 : Request)
         (ipLimiterMap : gmap string Bucket) (db : DB),
    ipLimiterMap !! RemoteAddr r1 = None ->
    RemoteAddr r2 = RemoteAddr r1 ->
    ExtractTokenFromHeader r1 = Plain "" ->
    let first := route_login hmac nanos unix env r1 (ipLimiterMap, db) in
    let second := route_login hmac nanos unix' env' r2 first.2 in
    first.1 = Error "Authorization header not found" StatusUnauthorized
    /\ first.2.2 = db
    /\ second.1 = Error "Rate limit exceeded" StatusTooManyRequests
    /\ second.2.2 = db.
Proof.
  intros hmac nanos unix unix' env env' r1 r2 m db M R E. cbv zeta.
  unfold route_login.
  rewrite (RateLimitMiddleware_first_sight _ nanos r1 m db M).
  rewrite AuthMiddleware_cases, E. cbn [fst snd]. simpl String.eqb. cbv iota.
  cbn [fst snd].
  rewrite (RateLimitMiddleware_throttled _ nanos nanos 0 r2 _ db)
    by (rewrite ?R, ?lookup_insert_eq, ?Z.sub_diag; reflexivity).
  repeat split.
Qed.

Lemma route_login_limits_before_auth_witness :
  (route_login sample_hmac 5 1700000000 sample_login_env
     (login_request (mkUser "a@x.com" "secret" ""))
     (route_login sample_hmac 5 1700000000 sample_login_env
        (register_request (mkUser "a@x.com" "secret" "")) (∅, one_user)).2).1
  = Error "Rate limit exceeded" StatusTooManyRequests.
Proof.
  assert (N : (∅ : gmap string Bucket)
              !! RemoteAddr (register_request (mkUser "a@x.com" "secret" "")) = None)
    by reflexivity.
  destruct (route_login_limits_before_auth sample_hmac 5 1700000000 1700000000
              sample_login_env sample_login_env
              (register_request (mkUser "a@x.com" "secret" ""))
              (login_request (mkUser "a@x.com" "secret" ""))
              ∅ one_user N eq_refl eq_refl) as (_ & _ & H & _).
  exact H.
Defined.

(** ** Issuing, registering and sweeping together *)

(** What a 200 of [GenerateInvitationCodeHandler] says about the run. *)
Lemma GenerateInvitationCodeHandler_issued (env : InviteEnv) (r : Request) (db : DB)
    (code : string) :
  body (GenerateInvitationCodeHandler env r db).1 = Json (mkInvitationCode code false) ->
  (GenerateInvitationCodeHandler env r db).2
  = insert_invitation (inv_new_id env) (inv_new_expires_at env) code
      (FormValue r "email") db.
Proof.
  unfold GenerateInvitationCodeHandler, run, bind, reject_err, reply, ret, get, put.
  destruct (rand_Read env) as [codeBytes|err]; [|discriminate].
  destruct (inv_exec_err env) as [err|]; simpl; [discriminate|].
  intros [= <-]. reflexivity.
Qed.

Lemma has_used_record_insert (id : Z) (t : option Z) (c e c' e' : string) (db : DB) :
  has_used_record c' e' (insert_invitation id t c e db) -> has_used_record c' e' db.
Proof.
  intros (row & I & H1 & H2 & U). simpl in I. apply in_app_or in I as [I | [<- | []]].
  - exists row. auto.
  - discriminate U.
Qed.

(** X24.  Issue and consume compose.  A code that
    [GenerateInvitationCodeHandler] has answered, whose record got an
    [expires_at] the clock is less than two minutes past, is accepted
    by [RegisterHandler] for the email it was issued to, provided no
    used record for that code and email was there and nothing fails. *)
Theorem issued_code_is_accepted :
  forall (ienv : InviteEnv) (renv : RegisterEnv) (r r' : Request) (db : DB)
         (code : string) (t : Z),
    body (GenerateInvitationCodeHandler ienv r db).1 = Json (mkInvitationCode code false) ->
    inv_new_expires_at ienv = Some t ->
    reg_NOW renv < t + minutes 2 ->
    Method r' = "POST" -> untroubled renv r' ->
    Code (Body r') = code -> Email (Body r') = FormValue r "email" ->
    ~ has_used_record code (FormValue r "email") db ->
    (RegisterHandler renv r' (GenerateInvitationCodeHandler ienv r db).2).1
    = mkResponse StatusCreated (Json (Body r')).
Proof.
  intros ienv renv r r' db code t B E L M U C Em NU.
  rewrite (GenerateInvitationCodeHandler_issued ienv r db code B), E.
  rewrite (RegisterHandler_untroubled renv r' _ M U). cbv zeta. rewrite C, Em.
  set (db' := insert_invitation (inv_new_id ienv) (Some t) code (FormValue r "email") db).
  assert (LIVE : has_live_record (reg_NOW renv) code (FormValue r "email") db').
  { exists (mkInvitation (inv_new_id ienv) code (FormValue r "email") false (Some t)), t.
    simpl. repeat split; auto. apply in_or_app. right. left. reflexivity. }
  assert (Q3 := proj2 (select_code_unused_email_live _ _ _ _) LIVE).
  assert (Q1 : select_exists (where_code_email code (FormValue r "email")) db' = true).
  { apply select_code_email. destruct LIVE as (row & t' & I & H1 & H2 & _).
    exists row; auto. }
  assert (Q2 : select_exists (where_code_used_email code (FormValue r "email")) db'
               = false).
  { destruct (select_exists (where_code_used_email _ _) db') eqn:Q; [|reflexivity].
    apply select_code_used_email, has_used_record_insert in Q. contradiction. }
  rewrite Q1, Q2, Q3. reflexivity.
Qed.

Lemma issued_code_is_accepted_witness :
  (RegisterHandler (calm (seconds 36))
     (register_request (mkUser "" "secret" "AQIDBAUGBwgJCgsMDQ4PEA=="))
     (GenerateInvitationCodeHandler sample_invite_env (bearer_request sample_token)
        (one_code false)).2).1
  = mkResponse StatusCreated (Json (mkUser "" "secret" "AQIDBAUGBwgJCgsMDQ4PEA==")).
Proof.
  apply (issued_code_is_accepted sample_invite_env (calm (seconds 36))
           (bearer_request sample_token)
           (register_request (mkUser "" "secret" "AQIDBAUGBwgJCgsMDQ4PEA=="))
           (one_code false) "AQIDBAUGBwgJCgsMDQ4PEA==" (seconds 2000));
    try reflexivity.
  - unfold untroubled; simpl. repeat split; eexists; reflexivity.
  - intros (row & [<- | []] & H & _). discriminate H.
Defined.

(** X25.  The program never writes [expires_at].  If the table gives
    the new record none, a code issued for a pair that had no record
    can never be consumed: with nothing failing, every registration
    with it is answered "Expired invitation code"; and the sweeper
    never reports the record either, at any instant. *)
Theorem code_without_expiry_is_dead :
  forall (ienv : InviteEnv) (renv : RegisterEnv) (r r' : Request) (db : DB)
         (code : string),
    body (GenerateInvitationCodeHandler ienv r db).1 = Json (mkInvitationCode code false) ->
    inv_new_expires_at ienv = None ->
    Method r' = "POST" -> untroubled renv r' ->
    Code (Body r') = code -> Email (Body r') = FormValue r "email" ->
    ~ has_record code (FormValue r "email") db ->
    let db' := (GenerateInvitationCodeHandler ienv r db).2 in
    (RegisterHandler renv r' db').1 = Error "Expired invitation code" StatusBadRequest
    /\ forall now, GetExpiredInvitations (mkSnapshot db' now None)
                   = GetExpiredInvitations (mkSnapshot db now None).
Proof.
  intros ienv renv r r' db code B E M U C Em NR. cbv zeta.
  rewrite (GenerateInvitationCodeHandler_issued ienv r db code B), E.
  set (db' := insert_invitation (inv_new_id ienv) None code (FormValue r "email") db).
  split.
  - rewrite (RegisterHandler_untroubled renv r' _ M U). cbv zeta. rewrite C, Em.
    assert (Q1 : select_exists (where_code_email code (FormValue r "email")) db' = true).
    { apply select_code_email.
      exists (mkInvitation (inv_new_id ienv) code (FormValue r "email") false None).
      simpl. repeat split; auto. apply in_or_app. right. left. reflexivity. }
    assert (Q2 : select_exists (where_code_used_email code (FormValue r "email")) db'
                 = false).
    { destruct (select_exists (where_code_used_email _ _) db') eqn:Q; [|reflexivity].
      apply select_code_used_email, has_used_record_insert in Q.
      destruct Q as (row & I & H1 & H2 & _). contradiction NR. exists row; auto. }
    assert (Q3 : select_exists
                   (where_code_unused_email_live (reg_NOW renv) code
                      (FormValue r "email")) db' = false).
    { destruct (select_exists (where_code_unused_email_live _ _ _) db') eqn:Q;
        [|reflexivity].
      apply select_code_unused_email_live in Q.
      destruct Q as (row & t & I & H1 & H2 & _ & X & _).
      simpl in I. apply in_app_or in I as [I | [<- | []]].
      - contradiction NR. exists row; auto.
      - discriminate X. }
    rewrite Q1, Q2, Q3. reflexivity.
  - intros now. unfold GetExpiredInvitations, db'.
    cbn [snap_err snap_db snap_NOW invitation_codes insert_invitation].
    rewrite filter_app, filter_cons_False, filter_nil, app_nil_r; [reflexivity|].
    unfold where_unused_expired, expires_before_grace. simpl. discriminate.
Qed.

Lemma code_without_expiry_is_dead_witness :
  (RegisterHandler (calm (seconds 36))
     (register_request (mkUser "" "secret" "AQIDBAUGBwgJCgsMDQ4PEA=="))
     (GenerateInvitationCodeHandler
        (mkInviteEnv (inl [1; 2; 3; 4; 5; 6; 7; 8; 9; 10; 11; 12; 13; 14; 15; 16])
           None 2 None)
        (bearer_request sample_token) (one_code false)).2).1
  = Error "Expired invitation code" StatusBadRequest.
Proof.
  apply (code_without_expiry_is_dead
           (mkInviteEnv (inl [1; 2; 3; 4; 5; 6; 7; 8; 9; 10; 11; 12; 13; 14; 15; 16])
              None 2 None)
           (calm (seconds 36)) (bearer_request sample_token)
           (register_request (mkUser "" "secret" "AQIDBAUGBwgJCgsMDQ4PEA=="))
           (one_code false) "AQIDBAUGBwgJCgsMDQ4PEA==");
    try reflexivity.
  - unfold untroubled; simpl. repeat split; eexists; reflexivity.
  - intros (row & [<- | []] & H & _). discriminate H.
Defined.

(** X26.  A consumed code is not swept.  Right after a registration
    answered 201, whatever the sweeper's query returns comes from
    records with another code than the one just consumed, at any
    instant of the clock. *)
Theorem consumed_code_is_not_swept :
  forall (env : RegisterEnv) (r : Request) (db : DB) (now : Z)
         (invs : list Invitation) (inv : Invitation),
    status (RegisterHandler env r db).1 = StatusCreated ->
    GetExpiredInvitations (mkSnapshot (RegisterHandler env r db).2 now None) = inl invs ->
    In inv invs ->
    exists row, In row (invitation_codes (RegisterHandler env r db).2)
                /\ inv = mkInv (inv_id row) (inv_email row)
                /\ inv_code row <> Code (Body r).
Proof.
  intros env r db now invs inv OK G I.
  assert (T : exists d, (RegisterHandler env r db).2 = update_used (Code (Body r)) d).
  { revert OK. rewrite RegisterHandler_cases. cbv zeta.
    repeat match goal with
           | |- context [match ?x with _ => _ end] => destruct x; try discriminate
           end.
    intros _. eexists. reflexivity. }
  destruct T as [d T].
  - unfold GetExpiredInvitations in G. simpl in G. injection G as <-.
    apply in_map_iff in I as (row & <- & I).
    apply list_elem_of_In, list_elem_of_filter in I as [P I].
    apply list_elem_of_In in I. exists row. repeat split; auto.
    intros C. rewrite T in I. simpl in I. apply in_map_iff in I as (row0 & <- & _).
    unfold where_unused_expired in P. apply andb_prop in P as [P _].
    unfold mark_used in *. destruct (String.eqb (inv_code row0) (Code (Body r))) eqn:Q.
    + discriminate P.
    + apply String.eqb_neq in Q. contradiction.
Qed.

Lemma consumed_code_is_not_swept_witness :
  exists row,
    In row (invitation_codes
              (RegisterHandler (calm (seconds 30))
                 (register_request (mkUser "b@y.com" "pw" "def456"))
                 (mkDB [mkInvitation 1 "abc123" "a@x.com" false (Some (seconds 1000));
                        mkInvitation 2 "def456" "b@y.com" false (Some (seconds 1000))]
                    [] [])).2)
    /\ mkInv 1 "a@x.com" = mkInv (inv_id row) (inv_email row)
    /\ inv_code row <> "def456".
Proof.
  apply (consumed_code_is_not_swept (calm (seconds 30))
           (register_request (mkUser "b@y.com" "pw" "def456"))
           (mkDB [mkInvitation 1 "abc123" "a@x.com" false (Some (seconds 1000));
                  mkInvitation 2 "def456" "b@y.com" false (Some (seconds 1000))] [] [])
           (seconds 5000) [mkInv 1 "a@x.com"] (mkInv 1 "a@x.com")).
  - reflexivity.
  - reflexivity.
  - left. reflexivity.
Defined.

Lemma coerce_ascii (s : string) : ascii_only s -> utf8.coerce s = s.
Proof.
  unfold ascii_only. induction s as [|c s IH]; simpl; [reflexivity|].
  intros F. inversion F as [|? ? H F']; subst.
  apply Nat.ltb_lt in H. rewrite H, (IH F'). reflexivity.
Qed.

(** X27.  For a non-empty Email [GenerateTokenHandler] always answers
    200 (signing with HS256 under a byte key cannot fail, so its 500
    is never sent), and the token of the answer is signed with HS256
    under [jwtKey] and carries two claims and no other: "email", the
    Email of the form as [encoding/json] writes it (U+FFFD for every
    byte that is not well-formed UTF-8, so the Email itself when it is
    ASCII), and "expiry", two hours after the clock.  It carries no
    registered "exp" claim. *)
Theorem GenerateTokenHandler_issues :
  forall (hmac : SigningMethod -> string -> SigningMethod * gmap string JSON -> string)
         (now : Z) (r : Request),
    PostFormValue r "Email" <> "" ->
    exists (t : Token) (j : Jws),
      status (GenerateTokenHandler hmac now r) = StatusOK
      /\ body (GenerateTokenHandler hmac now r) = Json t
      /\ Token_ t = Compact j
      /\ alg j = HS256
      /\ signature j = hmac HS256 jwtKey (HS256, payload j)
      /\ payload j !! "email" = Some (JString (utf8.coerce (PostFormValue r "Email")))
      /\ (ascii_only (PostFormValue r "Email") ->
          payload j !! "email" = Some (JString (PostFormValue r "Email")))
      /\ payload j !! "expiry" = Some (JNumber (now + 7200))
      /\ (forall k, k <> "email" -> k <> "expiry" -> payload j !! k = None).
Proof.
  intros hmac now r NE. unfold GenerateTokenHandler.
  apply String.eqb_neq in NE. rewrite NE, GenerateJWTToken_eq. cbv zeta.
  set (p := <["email":=JString (utf8.coerce (PostFormValue r "Email"))]>
              (<["expiry":=JNumber (twoHoursFrom now)]> (∅ : gmap string JSON))).
  exists (mkToken (Compact (mkJws HS256 p (hmac HS256 jwtKey (HS256, p))))
            (twoHoursFrom now)),
    (mkJws HS256 p (hmac HS256 jwtKey (HS256, p))).
  cbn [status body Token_ alg signature payload].
  split; [reflexivity|]. split; [reflexivity|]. split; [reflexivity|].
  split; [reflexivity|]. split; [reflexivity|]. unfold p. split; [|split; [|split]].
  - apply lookup_insert_eq.
  - intros A. rewrite lookup_insert_eq, (coerce_ascii _ A). reflexivity.
  - rewrite lookup_insert_ne by discriminate. apply lookup_insert_eq.
  - intros k K1 K2. rewrite !lookup_insert_ne by congruence. apply lookup_empty.
Qed.

Lemma GenerateTokenHandler_issues_witness :
  exists (t : Token) (j : Jws),
    status (GenerateTokenHandler sample_hmac 1700000000
              (token_request {["Email" := [invalid_utf8_email]]})) = StatusOK
    /\ body (GenerateTokenHandler sample_hmac 1700000000
               (token_request {["Email" := [invalid_utf8_email]]})) = Json t
    /\ Token_ t = Compact j
    /\ payload j !! "email" = Some (JString (utf8.RuneError +:+ "@x.com")).
Proof.
  destruct (GenerateTokenHandler_issues sample_hmac 1700000000
              (token_request {["Email" := [invalid_utf8_email]]}))
    as (t & j & H1 & H2 & H3 & _ & _ & H6 & _).
  - vm_compute. discriminate.
  - exists t, j. repeat (split; [assumption|]). exact H6.
Defined.

(** X28.  A request that carries no well-formed token changes no
    table, on any of the three routes behind [AuthMiddleware]: no
    invitation is issued, no user is registered, no session is
    recorded. *)
Theorem requests_without_token_change_no_table :
  forall (hmac : SigningMethod -> string -> SigningMethod * gmap string JSON -> string)
         (r : Request) (tok : string),
    ExtractTokenFromHeader r = Plain tok ->
    forall (unix nanos : Z) (ienv : InviteEnv) (renv : RegisterEnv) (lenv : LoginEnv)
           (ipLimiterMap : gmap string Bucket) (db : DB),
      (route_invite hmac unix ienv r db).2 = db
      /\ (route_register hmac unix renv r db).2 = db
      /\ (route_login hmac nanos unix lenv r (ipLimiterMap, db)).2.2 = db.
Proof.
  intros hmac r tok E unix nanos ienv renv lenv m db.
  unfold route_invite, route_register, route_login.
  rewrite RateLimitMiddleware_cases, !AuthMiddleware_cases, E. cbv zeta.
  destruct (String.eqb tok ""); simpl; destruct (_ =? 0); auto.
Qed.

Lemma requests_without_token_change_no_table_witness :
  (route_register sample_hmac 1700000000 (calm (seconds 30))
     (mkRequest "POST" [Plain "Bearer"; Plain "not.a.token"] ∅ ∅ alice "1.2.3.4:5")
     (one_code false)).2
  = one_code false.
Proof.
  apply (requests_without_token_change_no_table sample_hmac
           (mkRequest "POST" [Plain "Bearer"; Plain "not.a.token"] ∅ ∅ alice "1.2.3.4:5")
           "not.a.token" eq_refl 1700000000 0 sample_invite_env (calm (seconds 30))
           sample_login_env ∅ (one_code false)).
Defined.

(** [utf8.coerce] on sample byte strings: ASCII and well-formed
    sequences are kept; a lone lead byte, a surrogate and an overlong
    form are replaced byte by byte. *)
Example coerce_samples :
  utf8.coerce "a@x.com" = "a@x.com"
  /\ utf8.coerce (String (ascii_of_nat 195) (String (ascii_of_nat 169) "!"))
     = String (ascii_of_nat 195) (String (ascii_of_nat 169) "!")
  /\ utf8.coerce (String (ascii_of_nat 195) "!") = utf8.RuneError +:+ "!"
  /\ utf8.coerce (String (ascii_of_nat 237) (String (ascii_of_nat 160)
                    (String (ascii_of_nat 128) "")))
     = utf8.RuneError +:+ utf8.RuneError +:+ utf8.RuneError
  /\ utf8.coerce (String (ascii_of_nat 192) (String (ascii_of_nat 128) ""))
     = utf8.RuneError +:+ utf8.RuneError
  /\ utf8.coerce (String (ascii_of_nat 240) (String (ascii_of_nat 159)
                    (String (ascii_of_nat 152) (String (ascii_of_nat 128) "x"))))
     = String (ascii_of_nat 240) (String (ascii_of_nat 159)
         (String (ascii_of_nat 152) (String (ascii_of_nat 128) "x")))
  /\ utf8.coerce utf8.RuneError = utf8.RuneError.
Proof. repeat split; vm_compute; reflexivity. Qed.
